(** * ephemerad: instance parsing, script invocation, runtime wrapper,
      registry reconciliation and the Activate/Deactivate dispatcher.

    Shallow embedding of [ephemera.go] (package ephemera) and of the daemon
    (package main: [component], [readAllComponents], [syncComponents], the
    [swapper] of [watchInstanceDirectory], [rpc.Activate], [rpc.Deactivate]).

    Conventions.
    - A Go [string] is a [string]; an [encodedString] ([]byte) is a
      [list byte]; a Go pointer that may be nil is an [option].
    - A Go map is a [gmap]; a [range] loop that returns [false] at the first
      mismatch is a conjunction over [map_to_list], whose value does not
      depend on the order of iteration.
    - The outside world (the ini reader, the directory, processes, the bus,
      the JSON decoder) is a record of oracles; the effects of the program
      are recorded in a trace of events and threaded through a state monad.
    - Logging ([dlog], [elog]) has no influence on any result and is left
      out of the trace. *)

From stdpp Require Import gmap strings list fin_maps.
From Stdlib Require Import Strings.Ascii Strings.Byte.

(** ** Go's [strings] package, as far as the program uses it *)

(** [strings.HasPrefix(s, prefix)]. *)
Fixpoint strings_HasPrefix (s prefix : string) : bool :=
  match prefix, s with
  | EmptyString, _ => true
  | String p prefix', String a s' =>
      if decide (a = p) then strings_HasPrefix s' prefix' else false
  | String _ _, EmptyString => false
  end.

(** [strings.Split(s, sep)] for the one-byte separators the program uses
    (a space and a slash). The result is never empty: a string without
    the separator, the empty string included, is returned as one part. *)
Fixpoint strings_Split (s : string) (sep : ascii) : list string :=
  match s with
  | EmptyString => [EmptyString]
  | String a r =>
      if decide (a = sep) then EmptyString :: strings_Split r sep
      else match strings_Split r sep with
           | h :: t => String a h :: t
           | [] => [String a EmptyString]
           end
  end.

(** [strings.Join(parts, sep)]. *)
Fixpoint strings_Join (parts : list string) (sep : string) : string :=
  match parts with
  | [] => EmptyString
  | [p] => p
  | p :: rest => p +:+ sep +:+ strings_Join rest sep
  end.

(** ** The ini reader (github.com/go-ini/ini), as the program calls it

    Only the loaded file is modelled, not the text parser: a file is the
    list of its sections in file order, each with its own keys in file
    order. The library keeps section names unique and key names unique
    within a section; lookups below take the first match. *)
Module ini.

Record IniSection := {
  Name : string;
  Keys : list (string * string)
}.

Definition File := list IniSection.

(** The name the library gives to the section of keys that precede any
    section header; an empty section name denotes it. *)
Definition DefaultSection : string := "DEFAULT".

Definition own_key (s : IniSection) (name : string) : option string :=
  snd <$> List.find (fun kv => bool_decide (fst kv = name)) (Keys s).

(** [File.GetSection(name)]. *)
Definition GetSection (f : File) (name : string) : option IniSection :=
  let name := if decide (name = EmptyString) then DefaultSection else name in
  List.find (fun s => bool_decide (Name s = name)) f.

(** [File.Section(name)]: "assumes named section exists and returns a
    zero-value when not": a missing section is created empty. (The
    library also adds the created section to the file; the program only
    asks for [Component], whose name does not start with [Model ], so
    the later scan of [File.Sections()] does not see a difference.) *)
Definition Section (f : File) (name : string) : IniSection :=
  match GetSection f name with
  | Some s => s
  | None => {| Name := name; Keys := [] |}
  end.

(** The prefixes of [s] that end just before a dot, shortest first. *)
Fixpoint dot_prefixes (s : string) : list string :=
  match s with
  | EmptyString => []
  | String c r =>
      (if decide (c = "."%char) then [EmptyString] else [])
        ++ (String c <$> dot_prefixes r)
  end.

Fixpoint first_key (f : File) (names : list string) (key : string)
  : option string :=
  match names with
  | [] => None
  | n :: rest =>
      match GetSection f n ≫= (fun s => own_key s key) with
      | Some v => Some v
      | None => first_key f rest key
      end
  end.

(** [Section.GetKey(name)]: the section's own key, else the key of the
    nearest existing parent section (a section name is cut at its last
    dot, repeatedly), else an error. *)
Definition GetKey (f : File) (s : IniSection) (name : string)
  : option string :=
  match own_key s name with
  | Some v => Some v
  | None => first_key f (rev (dot_prefixes (Name s))) name
  end.

(** [Section.Key(name)]: "assumes named Key exists in section and returns
    a zero-value when not". The result is a [*Key], represented by the
    key's value, [None] standing for a nil pointer; the library never
    returns nil here: a missing key is created with the empty value.
    (The creation adds a key to the section; the keys the program asks
    for by name do not start with [RPC/], so the later scan of
    [Section.Keys()] does not see a difference, and the file is kept
    immutable here.) *)
Definition Key (f : File) (s : IniSection) (name : string) : option string :=
  Some (default EmptyString (GetKey f s name)).

(** [Key.MustString(defaultVal)]: the value, or [defaultVal] when the
    value is empty. The receiver is dereferenced; the [None] case stands
    for that nil dereference and is never reached from [Key]. *)
Definition MustString (k : option string) (defaultVal : string) : string :=
  match k with
  | Some value => if decide (value = EmptyString) then defaultVal else value
  | None => defaultVal
  end.

End ini.

(** ** Errors *)

(** The record that [json.Unmarshal] fills from a structured error
    document; its fields play no role here. *)
Record MgmtError := { mgmt_document : list byte }.

Inductive error :=
| ErrMgmt (merr : MgmtError)          (* &merr, decoded from stderr *)
| ErrExec (text : string)             (* mgmterror.NewExecError(nil, text) *)
| ErrNew (text : string)              (* errors.New(text) *)
| ErrLib (text : string).             (* an error of a library call *)

(** ** The data model of package ephemera *)

Abbreviation encodedString := (list byte).

Record config := {
  config_compName : string;
  config_modelName : string;
  config_get : string;
  config_set : string;
  config_check : string
}.

Record state := {
  state_compName : string;
  state_modelName : string;
  state_get : string
}.

Record rpc := {
  rpc_compName : string;
  rpc_modelName : string;
  rpc_modules : gmap string (gmap string string)
}.

Record Model := {
  Model_name : string;
  Model_config : option config;
  Model_state : option state;
  Model_rpc : option rpc
}.

Record Component := {
  instanceFile : string;
  Component_name : string;
  Component_start : string;
  Component_stop : string;
  Component_models : gmap string Model
}.

(** ** The instance definition parser *)

Section Parser.
Context (cfg : ini.File).

(** [configNew]: nil when the three keys are nil. *)
Definition configNew (compName modelName : string) (section : ini.IniSection)
  : option config :=
  let getKey := ini.Key cfg section "Config/Get" in
  let setKey := ini.Key cfg section "Config/Set" in
  let chkKey := ini.Key cfg section "Config/Check" in
  match getKey, setKey, chkKey with
  | None, None, None => None
  | _, _, _ =>
      Some {| config_compName := compName;
              config_modelName := modelName;
              config_get := ini.MustString getKey EmptyString;
              config_set := ini.MustString setKey EmptyString;
              config_check := ini.MustString chkKey EmptyString |}
  end.

(** [stateNew]: nil when the key is nil. *)
Definition stateNew (compName modelName : string) (section : ini.IniSection)
  : option state :=
  let getKey := ini.Key cfg section "State/Get" in
  match getKey with
  | None => None
  | Some _ =>
      Some {| state_compName := compName;
              state_modelName := modelName;
              state_get := ini.MustString getKey EmptyString |}
  end.

(** The body of the loop of [rpcNew] for one key of the section. *)
Definition rpcNew_key (modules : gmap string (gmap string string))
    (key : string * string) : gmap string (gmap string string) :=
  if negb (strings_HasPrefix (fst key) "RPC/") then modules
  else
    match strings_Split (fst key) "/"%char with
    | [_; module; name] =>
        let rpcs := default ∅ (modules !! module) in
        <[module := <[name := snd key]> rpcs]> modules
    | _ => modules
    end.

(** [rpcNew]: nil when no key of the section has the three-part shape. *)
Definition rpcNew (compName modelName : string) (section : ini.IniSection)
  : option rpc :=
  let modules := foldl rpcNew_key ∅ (ini.Keys section) in
  if decide (size modules = 0) then None
  else Some {| rpc_compName := compName;
               rpc_modelName := modelName;
               rpc_modules := modules |}.

(** [modelNew]. *)
Definition modelNew (compName name : string) (section : ini.IniSection)
  : Model :=
  {| Model_name := name;
     Model_config := configNew compName name section;
     Model_state := stateNew compName name section;
     Model_rpc := rpcNew compName name section |}.

(** The body of the loop of [instantiate] for one section. The section
    name starts with [Model ] there, so the split has a second part. *)
Definition instantiate_section (compName : string)
    (models : gmap string Model) (section : ini.IniSection)
  : gmap string Model :=
  if negb (strings_HasPrefix (ini.Name section) "Model ") then models
  else
    let modelName :=
      default EmptyString (strings_Split (ini.Name section) " "%char !! 1%nat) in
    <[modelName := modelNew compName modelName section]> models.

(** [Component.instantiate], after a successful [ini.Load]. *)
Definition instantiate_loaded (c : Component) : Component :=
  let comp := ini.Section cfg "Component" in
  let name := ini.MustString (ini.Key cfg comp "Name") EmptyString in
  let start := ini.MustString (ini.Key cfg comp "Start") EmptyString in
  let stop := ini.MustString (ini.Key cfg comp "Stop") EmptyString in
  {| instanceFile := instanceFile c;
     Component_name := name;
     Component_start := start;
     Component_stop := stop;
     Component_models :=
       foldl (instantiate_section name) (Component_models c) cfg |}.
End Parser.

(** ** Structural equality *)

(** [dyn.Equal(one, two)] (jsouthworth.net/go/dyn) on two pointers of one
    type: it calls the [Equal] method of [one] on [two]. Two nil pointers
    are taken as equal and a nil pointer as different from any record. *)
Definition dyn_Equal {A : Type} (Equal : A -> A -> bool) (one two : option A)
  : bool :=
  match one, two with
  | Some a, Some b => Equal a b
  | None, None => true
  | _, _ => false
  end.

(** [config.Equal]. *)
Definition config_Equal (c oc : config) : bool :=
  bool_decide (config_get c = config_get oc)
  && bool_decide (config_set c = config_set oc)
  && bool_decide (config_check c = config_check oc).

(** [state.Equal]. *)
Definition state_Equal (c os : state) : bool :=
  bool_decide (state_get c = state_get os).

(** [oNames[name]]: a Go map read, the empty string when [name] is not a
    key. *)
Definition names_at (oNames : gmap string string) (name : string) : string :=
  default EmptyString (oNames !! name).

(** One of the two loops of [rpc.Equal]: every module of [a] is a module
    of [b], and every script of [a] is what [b] reads at the same name. *)
Definition rpc_covered (a b : gmap string (gmap string string)) : bool :=
  forallb (fun entry =>
             match b !! fst entry with
             | None => false
             | Some oNames =>
                 forallb (fun ns => bool_decide (names_at oNames (fst ns) = snd ns))
                         (map_to_list (snd entry))
             end)
          (map_to_list a).

(** [rpc.Equal]. *)
Definition rpc_Equal (r or : rpc) : bool :=
  if negb (bool_decide (size (rpc_modules or) = size (rpc_modules r)))
  then false
  else rpc_covered (rpc_modules r) (rpc_modules or)
       && rpc_covered (rpc_modules or) (rpc_modules r).

(** [Model.Equal]. *)
Definition Model_Equal (c om : Model) : bool :=
  bool_decide (Model_name c = Model_name om)
  && dyn_Equal config_Equal (Model_config c) (Model_config om)
  && dyn_Equal state_Equal (Model_state c) (Model_state om)
  && dyn_Equal rpc_Equal (Model_rpc c) (Model_rpc om).

(** One of the two loops of [Component.equalModels]; [b !! k] is the Go
    map read [other.models[k]], nil when [k] is not a key. *)
Definition models_covered (a b : gmap string Model) : bool :=
  forallb (fun kv => dyn_Equal Model_Equal (Some (snd kv)) (b !! fst kv))
          (map_to_list a).

(** [Component.equalModels]. *)
Definition equalModels (c other : Component) : bool :=
  if negb (bool_decide (size (Component_models c) = size (Component_models other)))
  then false
  else models_covered (Component_models c) (Component_models other)
       && models_covered (Component_models other) (Component_models c).

(** [Component.Equal]. *)
Definition Component_Equal (c oc : Component) : bool :=
  bool_decide (Component_name c = Component_name oc)
  && bool_decide (Component_start c = Component_start oc)
  && bool_decide (Component_stop c = Component_stop oc)
  && equalModels c oc.

(** ** The outside world *)

(** An [exec.Cmd] as the program sets it up: program and arguments, the
    environment, and the standard input (nil when not set). *)
Record Cmd := {
  Cmd_Args : list string;
  Cmd_Env : list string;
  Cmd_Stdin : option encodedString
}.

(** What [cmd.Output()] leaves behind: the captured standard output, the
    bytes written to the standard error buffer, and whether the returned
    error is non-nil (a nonzero exit or a failure to start). *)
Record Output := {
  Output_buf : encodedString;
  Output_stderr : encodedString;
  Output_err : bool
}.

Inductive Event :=
| EvExec (cmd : Cmd)       (* cmd.Output() *)
| EvVciRun (id : nat)      (* vci.Component.Run() *)
| EvVciStop (id : nat).    (* vci.Component.Stop() *)

(** The collaborators. Processes and the bus may answer differently from
    one call to the next: they are given the trace of what happened before
    the call. *)
Record Outside := {
  ini_Load : string -> error + ini.File;
  ioutil_ReadDir : string -> option (list (string * bool));
  json_Unmarshal : encodedString -> option MgmtError;
  cmd_Output : list Event -> Cmd -> Output;
  vci_Run : list Event -> nat -> option error;
  vci_Stop : list Event -> nat -> option error
}.

(** The state of the program: the trace, the boolean held by each agent
    ([agent.New(false)] allocates one), and the next fresh identity. *)
Record World := {
  trace : list Event;
  agents : gmap nat bool;
  fresh : nat
}.

Definition World0 : World := {| trace := []; agents := ∅; fresh := 0 |}.

Definition M (A : Type) : Type := World -> A * World.

Definition ret {A : Type} (a : A) : M A := fun w => (a, w).

Definition bind {A B : Type} (m : M A) (k : A -> M B) : M B :=
  fun w => let (a, w') := m w in k a w'.

Notation "'do' x <- m ; k" := (bind m (fun x => k))
  (at level 10, x name, m at level 100, k at level 200, only parsing).

Definition emit {A : Type} (answer : list Event -> A) (e : Event) : M A :=
  fun w => (answer (trace w),
            {| trace := trace w ++ [e]; agents := agents w; fresh := fresh w |}).

(** [exec.Command(name, arg...)] followed by the assignments to the
    fields of the command. *)
Definition exec_Command (name : string) (arg : list string)
    (env : list string) (stdin : option encodedString) : Cmd :=
  {| Cmd_Args := name :: arg; Cmd_Env := env; Cmd_Stdin := stdin |}.

Definition Output_of (o : Outside) (cmd : Cmd) : M Output :=
  emit (fun tr => cmd_Output o tr cmd) (EvExec cmd).

(** [args[0]] and [args[1:]] of a split, which is never empty. *)
Definition args0 (args : list string) : string := default EmptyString (head args).
Definition args1 (args : list string) : list string := tail args.

(** ** The script invocation adapter *)

(** [genEnvironment]. *)
Definition genEnvironment (compName modelName operation : string) : list string :=
  [ "VCI_COMPONENT_NAME=" +:+ compName;
    "VCI_MODEL_NAME=" +:+ modelName;
    "EPHEMERA_MESSAGE=" +:+ operation ].

(** [unpackError]. *)
Definition unpackError (o : Outside) (stdErr : encodedString) : error :=
  match json_Unmarshal o stdErr with
  | None => ErrExec (String.string_of_list_byte stdErr)
  | Some merr => ErrMgmt merr
  end.

(** [config.Get]. *)
Definition config_Get (o : Outside) (c : config) : M encodedString :=
  if decide (config_get c = EmptyString) then ret []
  else
    let getArgs := strings_Split (config_get c) " "%char in
    let cmd := exec_Command (args0 getArgs) (args1 getArgs)
                 (genEnvironment (config_compName c) (config_modelName c) "Config/Get")
                 None in
    do out <- Output_of o cmd;
    if Output_err out then ret [] else ret (Output_buf out).

(** [config.Set]. *)
Definition config_Set (o : Outside) (c : config) (i : encodedString)
  : M (option error) :=
  if decide (config_set c = EmptyString) then ret None
  else
    let setArgs := strings_Split (config_set c) " "%char in
    let cmd := exec_Command (args0 setArgs) (args1 setArgs)
                 (genEnvironment (config_compName c) (config_modelName c) "Config/Set")
                 (Some i) in
    do out <- Output_of o cmd;
    if Output_err out then ret (Some (unpackError o (Output_stderr out)))
    else ret None.

(** [config.Check]. *)
Definition config_Check (o : Outside) (c : config) (i : encodedString)
  : M (option error) :=
  if decide (config_check c = EmptyString) then ret None
  else
    let checkArgs := strings_Split (config_check c) " "%char in
    let cmd := exec_Command (args0 checkArgs) (args1 checkArgs)
                 (genEnvironment (config_compName c) (config_modelName c) "Config/Check")
                 (Some i) in
    do out <- Output_of o cmd;
    if Output_err out then ret (Some (unpackError o (Output_stderr out)))
    else ret None.

(** [state.Get]. *)
Definition state_Get (o : Outside) (c : state) : M encodedString :=
  if decide (state_get c = EmptyString) then ret []
  else
    let getArgs := strings_Split (state_get c) " "%char in
    let cmd := exec_Command (args0 getArgs) (args1 getArgs)
                 (genEnvironment (state_compName c) (state_modelName c) "State/Get")
                 None in
    do out <- Output_of o cmd;
    if Output_err out then ret [] else ret (Output_buf out).

(** [rpc.genRpc]: the closure takes the request payload only. *)
Definition genRpc (o : Outside) (r : rpc) (module name script : string)
  : encodedString -> M (encodedString * option error) :=
  fun i =>
    let args := strings_Split script " "%char in
    let cmd := exec_Command (args0 args) (args1 args)
                 (genEnvironment (rpc_compName r) (rpc_modelName r)
                    (strings_Join ["RPC"; module; name] "/"))
                 (Some i) in
    do out <- Output_of o cmd;
    if Output_err out then ret ([], Some (unpackError o (Output_stderr out)))
    else ret (Output_buf out, None).

(** [rpc.genRpcs]: nil for a nil receiver. *)
Definition genRpcs (o : Outside) (r : option rpc)
  : option (gmap string (gmap string (encodedString -> M (encodedString * option error)))) :=
  match r with
  | None => None
  | Some r =>
      Some (map_imap (fun module rpcs =>
                        Some (map_imap (fun name script =>
                                          Some (genRpc o r module name script))
                                       rpcs))
                     (rpc_modules r))
  end.

(** [Component.Start]. *)
Definition Component_Start (o : Outside) (c : Component) : M (option error) :=
  if decide (Component_start c = EmptyString) then ret None
  else
    let startArgs := strings_Split (Component_start c) " "%char in
    let cmd := exec_Command (args0 startArgs) (args1 startArgs)
                 (genEnvironment (Component_name c) EmptyString "Start")
                 None in
    do out <- Output_of o cmd;
    if Output_err out then ret (Some (unpackError o (Output_stderr out)))
    else ret None.

(** [Component.Stop]. *)
Definition Component_Stop (o : Outside) (c : Component) : M (option error) :=
  if decide (Component_stop c = EmptyString) then ret None
  else
    let stopArgs := strings_Split (Component_stop c) " "%char in
    let cmd := exec_Command (args0 stopArgs) (args1 stopArgs)
                 (genEnvironment (Component_name c) EmptyString "Stop")
                 None in
    do out <- Output_of o cmd;
    if Output_err out then ret (Some (unpackError o (Output_stderr out)))
    else ret None.

(** ** Construction *)

Definition Opt : Type := Component -> Component.

(** [From]. *)
Definition From (file : string) : Opt :=
  fun c => {| instanceFile := file;
              Component_name := Component_name c;
              Component_start := Component_start c;
              Component_stop := Component_stop c;
              Component_models := Component_models c |}.

(** [Component.instantiate]. *)
Definition instantiate (o : Outside) (c : Component) : error + Component :=
  match ini_Load o (instanceFile c) with
  | inl err => inl err
  | inr cfg => inr (instantiate_loaded cfg c)
  end.

(** [New]. *)
Definition New (o : Outside) (opts : list Opt) : error + Component :=
  let c := {| instanceFile := EmptyString;
              Component_name := EmptyString;
              Component_start := EmptyString;
              Component_stop := EmptyString;
              Component_models := ∅ |} in
  instantiate o (foldl (fun c opt => opt c) c opts).

(** ** The daemon: the component runtime wrapper *)

(** What [createVCIComponent] registers for one model. *)
Record vciModel := {
  vciModel_config : option config;
  vciModel_state : option state;
  vciModel_rpc : gmap string (gmap string string)
}.

(** A [vci.Component]: the identity of the bus registration, the name it
    was created with and the models registered on it. *)
Record vciComponent := {
  vci_id : nat;
  vci_name : string;
  vci_models : gmap string vciModel
}.

(** The [component] of the daemon; [started] is the address of its agent. *)
Record component := {
  meta : Component;
  vci : vciComponent;
  started : nat
}.

Definition new_id : M nat :=
  fun w => (fresh w,
            {| trace := trace w; agents := agents w; fresh := S (fresh w) |}).

(** [agent.New(b)]. *)
Definition agent_New (b : bool) : M nat :=
  fun w => (fresh w,
            {| trace := trace w;
               agents := <[fresh w := b]> (agents w);
               fresh := S (fresh w) |}).

(** [agent.Deref()]. *)
Definition agent_Deref (a : nat) : M bool :=
  fun w => (default false (agents w !! a), w).

Definition agent_store (a : nat) (b : bool) : M unit :=
  fun w => (tt, {| trace := trace w;
                   agents := <[a := b]> (agents w);
                   fresh := fresh w |}).

(** [agent.Send(f)] together with the reply the caller waits for on its
    channel: the agent runs one function at a time, so the function runs
    on the current boolean, its result becomes the boolean, and the value
    it sent on the channel is what the caller receives. *)
Definition agent_Send {R : Type} (a : nat) (f : bool -> M (bool * R)) : M R :=
  do isRunning <- agent_Deref a;
  do r <- f isRunning;
  do _ <- agent_store a (fst r);
  ret (snd r).

(** [newComponent]. *)
Definition newComponent (m : Component) (v : vciComponent) : M component :=
  do a <- agent_New false;
  ret {| meta := m; vci := v; started := a |}.

(** [component.Run]: the result of [c.meta.Start()] is dropped. *)
Definition component_Run (o : Outside) (c : component) : M (option error) :=
  agent_Send (started c) (fun isRunning =>
    if isRunning then ret (isRunning, None)
    else
      do _ <- Component_Start o (meta c);
      do err <- emit (fun tr => vci_Run o tr (vci_id (vci c)))
                     (EvVciRun (vci_id (vci c)));
      match err with
      | None => ret (true, err)
      | Some _ => ret (false, err)
      end).

(** [component.Running]. *)
Definition component_Running (c : component) : M bool :=
  agent_Deref (started c).

(** [component.Stop]: the result of [c.meta.Stop()] is dropped. *)
Definition component_Stop (o : Outside) (c : component) : M (option error) :=
  agent_Send (started c) (fun isRunning =>
    if negb isRunning then ret (isRunning, None)
    else
      do _ <- Component_Stop o (meta c);
      do err <- emit (fun tr => vci_Stop o tr (vci_id (vci c)))
                     (EvVciStop (vci_id (vci c)));
      match err with
      | None => ret (false, err)
      | Some _ => ret (true, err)
      end).

(** ** The daemon: registry and reconciliation *)

(** [createVCIComponent]. *)
Definition createVCIComponent (comp : Component) : M vciComponent :=
  do id <- new_id;
  ret {| vci_id := id;
         vci_name := Component_name comp;
         vci_models :=
           (fun model =>
              {| vciModel_config := Model_config model;
                 vciModel_state := Model_state model;
                 vciModel_rpc :=
                   match Model_rpc model with
                   | Some r => rpc_modules r
                   | None => ∅
                   end |}) <$> Component_models comp |}.

(** The body of the loop of [readAllComponents] for one directory entry
    (its name and whether it is a directory). *)
Definition readAllComponents_entry (o : Outside) (instanceDir : string)
    (cs : gmap string component) (fi : string * bool)
  : M (gmap string component) :=
  if snd fi then ret cs
  else
    let name := instanceDir +:+ "/" +:+ fst fi in
    match New o [From name] with
    | inl _ => ret cs
    | inr comp =>
        do v <- createVCIComponent comp;
        do c <- newComponent comp v;
        ret (<[Component_name comp := c]> cs)
    end.

Fixpoint readAllComponents_loop (o : Outside) (instanceDir : string)
    (cs : gmap string component) (dir : list (string * bool))
  : M (gmap string component) :=
  match dir with
  | [] => ret cs
  | fi :: rest =>
      do cs' <- readAllComponents_entry o instanceDir cs fi;
      readAllComponents_loop o instanceDir cs' rest
  end.

(** [readAllComponents]. *)
Definition readAllComponents (o : Outside) (instanceDir : string)
  : M (gmap string component) :=
  match ioutil_ReadDir o instanceDir with
  | None => ret ∅
  | Some dir => readAllComponents_loop o instanceDir ∅ dir
  end.

(** The actions collected by [syncComponents]: the component whose [Stop]
    is to be called, under the name it is logged with. *)
Definition sync_removed (old new : gmap string component)
  : list (string * component) :=
  filter (fun nc => new !! fst nc = None) (map_to_list old).

(** The body of the second loop of [syncComponents] for one entry of the
    new snapshot: the old component to stop, if any. *)
Definition sync_changed_entry (old : gmap string component)
    (nc : string * component) : option (string * component) :=
  match old !! fst nc with
  | None => None
  | Some val =>
      if dyn_Equal Component_Equal (Some (meta (snd nc))) (Some (meta val))
      then None
      else Some (fst nc, val)
  end.

Definition sync_changed (old new : gmap string component)
  : list (string * component) :=
  omap (sync_changed_entry old) (map_to_list new).

Definition sync_actions (old new : gmap string component)
  : list (string * component) :=
  sync_removed old new ++ sync_changed old new.

Fixpoint run_actions (o : Outside) (actions : list (string * component))
  : M unit :=
  match actions with
  | [] => ret tt
  | act :: rest =>
      do _ <- component_Stop o (snd act);
      run_actions o rest
  end.

(** [syncComponents]. *)
Definition syncComponents (o : Outside) (old new : gmap string component)
  : M unit :=
  run_actions o (sync_actions old new).

(** The body of the loop of the [swapper] for one entry of the fresh
    snapshot: the component kept under that name. *)
Definition swapper_entry (old : gmap string component)
    (name : string) (comp : component) : option component :=
  match old !! name with
  | None => Some comp
  | Some oldComp =>
      if dyn_Equal Component_Equal (Some (meta comp)) (Some (meta oldComp))
      then Some oldComp
      else Some comp
  end.

(** The [swapper] of [watchInstanceDirectory]. *)
Definition swapper (o : Outside) (instanceDir : string)
    (old : gmap string component) : M (gmap string component) :=
  do new <- readAllComponents o instanceDir;
  ret (map_imap (swapper_entry old) new).

(** One reconciliation pass: [managedComponents.Swap(swapper)], after
    which the watch [sync-components] is called with the old and the new
    value. *)
Definition reconcile (o : Outside) (instanceDir : string)
    (old : gmap string component) : M (gmap string component) :=
  do new <- swapper o instanceDir old;
  do _ <- syncComponents o old new;
  ret new.

(** ** The daemon: the bus operation dispatcher *)

(** An [rfc7951.Tree]; the dispatcher only builds the empty one. *)
Inductive Tree := TreeNew.

(** [rpc.Activate]; [name] is the component named by the request. *)
Definition Activate (o : Outside) (cs : gmap string component) (name : string)
  : M (option Tree * option error) :=
  match cs !! name with
  | None => ret (None, Some (ErrNew ("no component by the name " +:+ name +:+ " found")))
  | Some comp =>
      do err <- component_Run o comp;
      match err with
      | Some e => ret (None, Some e)
      | None => ret (Some TreeNew, None)
      end
  end.

(** [rpc.Deactivate]. *)
Definition Deactivate (o : Outside) (cs : gmap string component) (name : string)
  : M (option Tree * option error) :=
  match cs !! name with
  | None => ret (None, Some (ErrNew ("no component by the name " +:+ name +:+ " found")))
  | Some comp =>
      do err <- component_Stop o comp;
      match err with
      | Some e => ret (None, Some e)
      | None => ret (Some TreeNew, None)
      end
  end.

(** ** The operations backed by a script, seen uniformly *)

Inductive Operation :=
| OpConfigGet (c : config)
| OpConfigSet (c : config) (i : encodedString)
| OpConfigCheck (c : config) (i : encodedString)
| OpStateGet (s : state)
| OpRPC (r : rpc) (module name script : string) (i : encodedString)
| OpStart (c : Component)
| OpStop (c : Component).

(** What a call hands back to its caller, by the result types of the Go
    functions: [Get] returns a payload and no error, [Set], [Check],
    [Start] and [Stop] return an error (nil on success), the closure of
    [genRpc] returns both. *)
Inductive Result :=
| RetPayload (buf : encodedString)
| RetError (err : option error)
| RetBoth (buf : encodedString) (err : option error).

Definition perform (o : Outside) (op : Operation) : M Result :=
  match op with
  | OpConfigGet c => do b <- config_Get o c; ret (RetPayload b)
  | OpConfigSet c i => do e <- config_Set o c i; ret (RetError e)
  | OpConfigCheck c i => do e <- config_Check o c i; ret (RetError e)
  | OpStateGet s => do b <- state_Get o s; ret (RetPayload b)
  | OpRPC r module name script i =>
      do be <- genRpc o r module name script i; ret (RetBoth (fst be) (snd be))
  | OpStart c => do e <- Component_Start o c; ret (RetError e)
  | OpStop c => do e <- Component_Stop o c; ret (RetError e)
  end.

(** The command line configured for an operation. *)
Definition command_line (op : Operation) : string :=
  match op with
  | OpConfigGet c => config_get c
  | OpConfigSet c _ => config_set c
  | OpConfigCheck c _ => config_check c
  | OpStateGet s => state_get s
  | OpRPC _ _ _ script _ => script
  | OpStart c => Component_start c
  | OpStop c => Component_stop c
  end.

(** The component name, the model name and the operation label that go
    into the environment of an operation, and its standard input. *)
Definition op_compName (op : Operation) : string :=
  match op with
  | OpConfigGet c | OpConfigSet c _ | OpConfigCheck c _ => config_compName c
  | OpStateGet s => state_compName s
  | OpRPC r _ _ _ _ => rpc_compName r
  | OpStart c | OpStop c => Component_name c
  end.

Definition op_modelName (op : Operation) : string :=
  match op with
  | OpConfigGet c | OpConfigSet c _ | OpConfigCheck c _ => config_modelName c
  | OpStateGet s => state_modelName s
  | OpRPC r _ _ _ _ => rpc_modelName r
  | OpStart _ | OpStop _ => EmptyString
  end.

Definition op_label (op : Operation) : string :=
  match op with
  | OpConfigGet _ => "Config/Get"
  | OpConfigSet _ _ => "Config/Set"
  | OpConfigCheck _ _ => "Config/Check"
  | OpStateGet _ => "State/Get"
  | OpRPC _ module name _ _ => strings_Join ["RPC"; module; name] "/"
  | OpStart _ => "Start"
  | OpStop _ => "Stop"
  end.

Definition op_stdin (op : Operation) : option encodedString :=
  match op with
  | OpConfigSet _ i | OpConfigCheck _ i | OpRPC _ _ _ _ i => Some i
  | OpConfigGet _ | OpStateGet _ | OpStart _ | OpStop _ => None
  end.

Definition is_rpc (op : Operation) : bool :=
  match op with OpRPC _ _ _ _ _ => true | _ => false end.

Definition is_get (op : Operation) : bool :=
  match op with OpConfigGet _ | OpStateGet _ => true | _ => false end.

(** An operation runs its script unless its command line is empty; the
    closure of [genRpc] has no such test. *)
Definition spawns (op : Operation) : bool :=
  is_rpc op || negb (bool_decide (command_line op = EmptyString)).

Definition returns_error (r : Result) : bool :=
  match r with
  | RetPayload _ => false
  | RetError err | RetBoth _ err =>
      match err with Some _ => true | None => false end
  end.

Definition returned_payload (r : Result) : option encodedString :=
  match r with
  | RetPayload buf | RetBoth buf _ => Some buf
  | RetError _ => None
  end.

(** Whether an event is a script invocation whose environment carries the
    operation label [message], and the number of those in a trace. *)
Definition runs_script (message : string) (e : Event) : bool :=
  match e with
  | EvExec cmd => bool_decide (("EPHEMERA_MESSAGE=" +:+ message) ∈ Cmd_Env cmd)
  | _ => false
  end.

Definition invocations (message : string) (tr : list Event) : nat :=
  length (List.filter (runs_script message) tr).

(** ** Concrete collaborators and instance files used in examples *)

Definition script_fails : Output :=
  {| Output_buf := [x68; x69]; Output_stderr := [x6e; x6f]; Output_err := true |}.

Definition script_succeeds : Output :=
  {| Output_buf := [x68; x69]; Output_stderr := []; Output_err := false |}.

Definition no_files : string -> error + ini.File :=
  fun _ => inl (ErrLib "open: no such file or directory").

(** Every script exits nonzero; the bus accepts every call. *)
Definition outside_scripts_fail : Outside :=
  {| ini_Load := no_files;
     ioutil_ReadDir := fun _ => None;
     json_Unmarshal := fun _ => None;
     cmd_Output := fun _ _ => script_fails;
     vci_Run := fun _ _ => None;
     vci_Stop := fun _ _ => None |}.

(** Every script exits zero; the bus refuses every call. *)
Definition outside_bus_fails : Outside :=
  {| ini_Load := no_files;
     ioutil_ReadDir := fun _ => None;
     json_Unmarshal := fun _ => None;
     cmd_Output := fun _ _ => script_succeeds;
     vci_Run := fun _ _ => Some (ErrLib "bus: not connected");
     vci_Stop := fun _ _ => Some (ErrLib "bus: not connected") |}.

(** Every script exits zero; the bus accepts every call. *)
Definition outside_ok : Outside :=
  {| ini_Load := no_files;
     ioutil_ReadDir := fun _ => None;
     json_Unmarshal := fun _ => None;
     cmd_Output := fun _ _ => script_succeeds;
     vci_Run := fun _ _ => None;
     vci_Stop := fun _ _ => None |}.

Definition toaster_config : config :=
  {| config_compName := "toaster";
     config_modelName := "toaster.v1";
     config_get := "/lib/vci-toaster --action=get-config";
     config_set := "/lib/vci-toaster --action=commit";
     config_check := "/lib/vci-toaster --action=validate" |}.


Definition toaster_meta : Component :=
  {| instanceFile := "/lib/vci/ephemera/instances/toaster.instance";
     Component_name := "toaster";
     Component_start := "/lib/vci-toaster --action=start";
     Component_stop := "/lib/vci-toaster --action=stop";
     Component_models := ∅ |}.

(** A runtime component for [toaster_meta] with bus identity 0 and its
    agent at address 1. *)
Definition toaster : component :=
  {| meta := toaster_meta;
     vci := {| vci_id := 0; vci_name := "toaster"; vci_models := ∅ |};
     started := 1 |}.

Definition toaster_stopped : World :=
  {| trace := []; agents := {[ 1 := false ]}; fresh := 2 |}.

Definition toaster_running : World :=
  {| trace := []; agents := {[ 1 := true ]}; fresh := 2 |}.

(** The command an operation sets up when it runs its script. *)
Definition command_of (op : Operation) : Cmd :=
  let args := strings_Split (command_line op) " "%char in
  exec_Command (args0 args) (args1 args)
    (genEnvironment (op_compName op) (op_modelName op) (op_label op))
    (op_stdin op).

(** The world after one more event. *)
Definition after (w : World) (e : Event) : World :=
  {| trace := trace w ++ [e]; agents := agents w; fresh := fresh w |}.

Definition is_nil (err : option error) : bool :=
  match err with None => true | Some _ => false end.




(** The instance definition of the README, as loaded. *)
Definition toaster_section : ini.IniSection :=
  {| ini.Name := "Model toaster.v1";
     ini.Keys :=
       [ ("Config/Check", "/lib/vci-toaster --action=validate");
         ("Config/Set", "/lib/vci-toaster --action=commit");
         ("Config/Get", "/lib/vci-toaster --action=get-config");
         ("State/Get", "/lib/vci-toaster --action=get-state");
         ("RPC/toaster/make-toast", "/lib/vci-toaster --action=make-toast");
         ("RPC/toaster/cancel-toast", "/lib/vci-toaster --action=cancel-toast");
         ("RPC/kitchen/restock", "/lib/vci-toaster --action=restock") ] |}.

(** The same keys and values in another order. *)
Definition toaster_section_reordered : ini.IniSection :=
  {| ini.Name := "Model toaster.v1";
     ini.Keys :=
       [ ("RPC/kitchen/restock", "/lib/vci-toaster --action=restock");
         ("State/Get", "/lib/vci-toaster --action=get-state");
         ("RPC/toaster/cancel-toast", "/lib/vci-toaster --action=cancel-toast");
         ("Config/Get", "/lib/vci-toaster --action=get-config");
         ("RPC/toaster/make-toast", "/lib/vci-toaster --action=make-toast");
         ("Config/Set", "/lib/vci-toaster --action=commit");
         ("Config/Check", "/lib/vci-toaster --action=validate") ] |}.


Definition default_section : ini.IniSection :=
  {| ini.Name := ini.DefaultSection; ini.Keys := [] |}.

Definition toaster_instance : ini.File :=
  [ default_section;
    {| ini.Name := "Component";
       ini.Keys := [ ("Name", "toaster");
                     ("Start", "/lib/vci-toaster --action=start");
                     ("Stop", "/lib/vci-toaster --action=stop") ] |};
    toaster_section ].

(** An instance definition whose model section has no key. *)
Definition bare_instance : ini.File :=
  [ default_section;
    {| ini.Name := "Component"; ini.Keys := [ ("Name", "bare") ] |};
    {| ini.Name := "Model bare.v1"; ini.Keys := [] |} ].

Definition instances : string := "/lib/vci/ephemera/instances".

(** An instance directory with the toaster definition (also readable
    under a second path, which the directory does not list), a
    subdirectory and a file that does not load; scripts exit zero and the
    bus accepts every call. *)
Definition outside_instances : Outside :=
  {| ini_Load := fun path =>
       if decide (path = "/lib/vci/ephemera/instances/toaster.instance")
       then inr toaster_instance
       else if decide (path = "/lib/vci/ephemera/instances/renamed.instance")
       then inr toaster_instance
       else if decide (path = "/lib/vci/ephemera/instances/bare.instance")
       then inr bare_instance
       else inl (ErrLib "open: no such file or directory");
     ioutil_ReadDir := fun dir =>
       if decide (dir = instances)
       then Some [ ("broken.instance", false); ("old", true);
                   ("toaster.instance", false) ]
       else None;
     json_Unmarshal := fun _ => None;
     cmd_Output := fun _ _ => script_succeeds;
     vci_Run := fun _ _ => None;
     vci_Stop := fun _ _ => None |}.

(** A scan of the instance directory runs no script and calls no bus
    operation; it allocates fresh identities and fresh agents and leaves
    the agents that exist alone. *)
Definition scan_frame (w w' : World) : Prop :=
  trace w' = trace w
  /\ fresh w <= fresh w'
  /\ forall a, a < fresh w -> agents w' !! a = agents w !! a.

(** The first scan of the example directory, from the empty world. *)
Definition first_scan : gmap string component * World :=
  readAllComponents outside_instances instances World0.

(** Every fresh component that has a predecessor of the same name is
    structurally equal to it. *)
Definition equal_to_predecessors (new old : gmap string component) : bool :=
  forallb (fun nc =>
             match old !! fst nc with
             | Some oc => Component_Equal (meta (snd nc)) (meta oc)
             | None => true
             end)
          (map_to_list new).

(** [r.modules[module][name]] read the Go way: the empty string when the
    module or the name is not a key. *)
Definition script_at (modules : gmap string (gmap string string))
    (module name : string) : string :=
  names_at (default ∅ (modules !! module)) name.

(** Two models carry the same commands: the same name, and config, state
    and RPC records that are both absent or both present with the same
    command strings (the component and model names kept in the records are
    not compared). *)
Definition same_commands (m1 m2 : Model) : Prop :=
  Model_name m1 = Model_name m2
  /\ option_Forall2 (fun c1 c2 => config_get c1 = config_get c2
                                  /\ config_set c1 = config_set c2
                                  /\ config_check c1 = config_check c2)
                    (Model_config m1) (Model_config m2)
  /\ option_Forall2 (fun s1 s2 => state_get s1 = state_get s2)
                    (Model_state m1) (Model_state m2)
  /\ option_Forall2 (fun r1 r2 => rpc_modules r1 = rpc_modules r2)
                    (Model_rpc m1) (Model_rpc m2).

(** ** Further definitions: payloads, accessors, keys *)

(** [encodedString.UnmarshalJSON] and [encodedString.UnmarshalRFC7951]:
    the receiver is overwritten with the data as it is, and the error is
    nil. A slice that may be nil is an [option]. *)
Definition encodedString_UnmarshalJSON (data : option (list byte))
  : option (list byte) * option error :=
  (data, None).

Definition encodedString_UnmarshalRFC7951 (data : option (list byte))
  : option (list byte) * option error :=
  (data, None).

(** The bytes of the literal [null]. *)
Definition null_bytes : list byte := [x6e; x75; x6c; x6c].

(** [encodedString.MarshalJSON] and [encodedString.MarshalRFC7951]. *)
Definition encodedString_MarshalJSON (s : option (list byte))
  : list byte * option error :=
  match s with
  | None => (null_bytes, None)
  | Some b => (b, None)
  end.

Definition encodedString_MarshalRFC7951 (s : option (list byte))
  : list byte * option error :=
  match s with
  | None => (null_bytes, None)
  | Some b => (b, None)
  end.

(** [Model.Config], [Model.State], [Model.RPC]. *)
Definition Model_Config (c : Model) : option config * bool :=
  (Model_config c, bool_decide (Model_config c <> None)).

Definition Model_State (c : Model) : option state * bool :=
  (Model_state c, bool_decide (Model_state c <> None)).

Definition Model_RPC (o : Outside) (c : Model)
  : option (gmap string (gmap string (encodedString -> M (encodedString * option error))))
    * bool :=
  (genRpcs o (Model_rpc c), bool_decide (Model_rpc c <> None)).

(** [Component.Name] and [Component.Models]. *)
Definition Component_Name (c : Component) : string := Component_name c.
Definition Component_Models (c : Component) : gmap string Model :=
  Component_models c.

(** Whether a byte occurs in a string. *)
Fixpoint has_byte (c : ascii) (s : string) : bool :=
  match s with
  | EmptyString => false
  | String a r => if decide (a = c) then true else has_byte c r
  end.

(** The key under which an instance file declares the script of an
    operation of a module. *)
Definition rpc_key (module name : string) : string :=
  strings_Join ["RPC"; module; name] "/".

(** The script kept for an operation of a module, if any. *)
Definition rpc_script (modules : gmap string (gmap string string))
    (module name : string) : option string :=
  modules !! module ≫= (fun rpcs => rpcs !! name).

(** The model name that [instantiate] reads off a section name. *)
Definition section_modelName (section : ini.IniSection) : string :=
  default EmptyString (strings_Split (ini.Name section) " "%char !! 1%nat).


(** A directory entry that [readAllComponents] turns into a component:
    not a directory, and a file that loads. *)
Definition loads (o : Outside) (instanceDir : string) (fi : string * bool)
  : bool :=
  negb (snd fi)
  && match New o [From (instanceDir +:+ "/" +:+ fst fi)] with
     | inl _ => false
     | inr _ => true
     end.

(** An event of stopping: a stop script or a bus un-registration. *)
Definition stop_event (e : Event) : Prop :=
  match e with
  | EvExec cmd => exists c, cmd = command_of (OpStop c)
  | EvVciStop _ => True
  | EvVciRun _ => False
  end.

(** What holds of a snapshot [cs] built by a scan of the directory listing
    [dir] that started in the world [w0] and has reached the world [w]. *)
Definition scanned (o : Outside) (instanceDir : string)
    (dir : list (string * bool)) (w0 : World)
    (cs : gmap string component) (w : World) : Prop :=
  forall name c, cs !! name = Some c ->
    Component_name (meta c) = name
    /\ vci_name (vci c) = name
    /\ fresh w0 <= vci_id (vci c) < fresh w
    /\ fresh w0 <= started c < fresh w
    /\ agents w !! started c = Some false
    /\ (exists file, (file, false) ∈ dir
          /\ New o [From (instanceDir +:+ "/" +:+ file)] = inr (meta c))
    /\ (forall name' c', cs !! name' = Some c' ->
          started c' = started c -> name' = name).

Ltac step_ops :=
  cbv beta iota zeta delta
    [perform bind ret config_Get config_Set config_Check state_Get genRpc
     Component_Start Component_Stop Output_of emit].

(** * Properties *)

(** ** The script invocation adapter *)

Lemma perform_unconfigured (o : Outside) (op : Operation) (w : World) :
  spawns op = false ->
  perform o op w =
    (if is_get op then RetPayload [] else RetError None, w).
Proof.
  unfold spawns. intros Hs.
  apply orb_false_iff in Hs as [Hrpc Hline].
  apply negb_false_iff, bool_decide_eq_true in Hline.
  destruct op; simpl in *; try discriminate;
    step_ops; rewrite Hline; reflexivity.
Qed.

(** A script that runs is run once, with the command of the operation;
    the oracle is asked with the trace as it is before the call. *)
Lemma perform_trace (o : Outside) (op : Operation) (w : World) :
  spawns op = true ->
  snd (perform o op w) = after w (EvExec (command_of op)).
Proof.
  unfold spawns. intros Hs.
  destruct op; simpl in Hs;
    try (apply negb_true_iff, bool_decide_eq_false in Hs);
    step_ops;
    try (destruct (decide _) as [He|_]; [by destruct Hs|]);
    match goal with
    | |- context [Output_err ?x] => destruct (Output_err x)
    end; reflexivity.
Qed.

Lemma perform_failure (o : Outside) (op : Operation) (w : World) :
  spawns op = true ->
  Output_err (cmd_Output o (trace w) (command_of op)) = true ->
  fst (perform o op w) =
    let merr := unpackError o (Output_stderr (cmd_Output o (trace w) (command_of op))) in
    match op with
    | OpConfigGet _ | OpStateGet _ => RetPayload []
    | OpRPC _ _ _ _ _ => RetBoth [] (Some merr)
    | _ => RetError (Some merr)
    end.
Proof.
  unfold spawns. intros Hs Herr.
  destruct op; simpl in Hs;
    try (apply negb_true_iff, bool_decide_eq_false in Hs);
    step_ops;
    try (destruct (decide _) as [He|_]; [by destruct Hs|]);
    cbv beta iota zeta delta
      [command_of command_line op_compName op_modelName op_label op_stdin]
      in Herr;
    rewrite Herr; reflexivity.
Qed.




(** C4, as stated, fails on [config.Get]: when the script exits nonzero
    the call returns the empty payload and no error; [Get] has no error
    result at all. *)
Lemma C4_get_returns_no_error :
  let op := OpConfigGet toaster_config in
  command_line op <> EmptyString
  /\ Output_err (cmd_Output outside_scripts_fail (trace World0) (command_of op)) = true
  /\ fst (perform outside_scripts_fail op World0) = RetPayload []
  /\ returns_error (fst (perform outside_scripts_fail op World0)) = false.
Proof. repeat split; discriminate. Qed.

(** C4, amended. When the script of a configured operation exits nonzero,
    Set, Check and the RPC closure (and Start and Stop) return the error
    unpacked from the standard error, while Config Get and State Get return
    the empty payload and no error; in every case the payload handed back,
    if the operation has one, is empty, whatever the script wrote to its
    standard output. *)
Theorem C4_nonzero_exit (o : Outside) (op : Operation) (w : World) :
  command_line op <> EmptyString ->
  Output_err (cmd_Output o (trace w) (command_of op)) = true ->
  let r := fst (perform o op w) in
  returns_error r = negb (is_get op)
  /\ (is_get op = false ->
      let merr :=
        unpackError o (Output_stderr (cmd_Output o (trace w) (command_of op))) in
      r = RetError (Some merr) \/ r = RetBoth [] (Some merr))
  /\ (returned_payload r = None \/ returned_payload r = Some []).
Proof.
  intros Hline Herr r.
  assert (Hs : spawns op = true).
  { unfold spawns. apply orb_true_iff. right.
    apply negb_true_iff, bool_decide_eq_false. exact Hline. }
  subst r. rewrite (perform_failure o op w Hs Herr).
  destruct op; simpl; (split; [reflexivity|]);
    (split; [intros; try discriminate; eauto | eauto]).
Qed.

Lemma C4_nonzero_exit_witness :
  let op := OpConfigSet toaster_config [x7b; x7d] in
  let r := fst (perform outside_scripts_fail op World0) in
  returns_error r = true
  /\ (is_get op = false ->
      let merr :=
        unpackError outside_scripts_fail
          (Output_stderr (cmd_Output outside_scripts_fail (trace World0)
                            (command_of op))) in
      r = RetError (Some merr) \/ r = RetBoth [] (Some merr))
  /\ (returned_payload r = None \/ returned_payload r = Some []).
Proof.
  apply (C4_nonzero_exit outside_scripts_fail
           (OpConfigSet toaster_config [x7b; x7d]) World0).
  - discriminate.
  - reflexivity.
Defined.

(** The environment of every script invocation is the three variables of
    [genEnvironment], in this order; the model name is empty for Start and
    Stop. *)
Lemma invocation_environment (o : Outside) (op : Operation) (w : World) :
  spawns op = true ->
  exists cmd,
    snd (perform o op w) = after w (EvExec cmd)
    /\ Cmd_Env cmd = [ "VCI_COMPONENT_NAME=" +:+ op_compName op;
                       "VCI_MODEL_NAME=" +:+ op_modelName op;
                       "EPHEMERA_MESSAGE=" +:+ op_label op ]
    /\ Cmd_Stdin cmd = op_stdin op.
Proof.
  intros Hs. exists (command_of op).
  split; [apply perform_trace; exact Hs | split; reflexivity].
Qed.

Lemma start_stop_model_name_empty (c : Component) :
  op_modelName (OpStart c) = EmptyString /\ op_modelName (OpStop c) = EmptyString.
Proof. split; reflexivity. Qed.

Lemma rpc_label (r : rpc) (module name script : string) (i : encodedString) :
  op_label (OpRPC r module name script i) = "RPC/" +:+ module +:+ "/" +:+ name.
Proof. reflexivity. Qed.

(** C6. The closure of [genRpc] receives the request payload only and runs
    its script with exactly the three variables of [genEnvironment]: no
    entry of the environment is [VCI_RPC_METADATA], and the standard input
    is the payload. The call metadata does not reach the script. *)
Theorem C6_rpc_invocation_carries_no_metadata
    (o : Outside) (r : rpc) (module name script : string)
    (i : encodedString) (w : World) :
  exists cmd,
    snd (genRpc o r module name script i w) = after w (EvExec cmd)
    /\ Cmd_Env cmd = [ "VCI_COMPONENT_NAME=" +:+ rpc_compName r;
                       "VCI_MODEL_NAME=" +:+ rpc_modelName r;
                       "EPHEMERA_MESSAGE=RPC/" +:+ module +:+ "/" +:+ name ]
    /\ forallb (fun e => negb (strings_HasPrefix e "VCI_RPC_METADATA"))
               (Cmd_Env cmd) = true
    /\ Cmd_Stdin cmd = Some i.
Proof.
  exists (command_of (OpRPC r module name script i)).
  split.
  - pose proof (perform_trace o (OpRPC r module name script i) w eq_refl) as H.
    revert H. step_ops.
    match goal with
    | |- context [Output_err ?x] => destruct (Output_err x)
    end; intros H; exact H.
  - repeat split.
Qed.

(** ** The component runtime wrapper *)

Lemma Component_Start_world (o : Outside) (c : Component) (w : World) :
  snd (Component_Start o c w) =
    if decide (Component_start c = EmptyString) then w
    else after w (EvExec (command_of (OpStart c))).
Proof.
  destruct (decide (Component_start c = EmptyString)) as [He|Hne].
  - pose proof (perform_unconfigured o (OpStart c) w) as H.
    unfold spawns in H. simpl in H. rewrite He in H.
    specialize (H eq_refl). revert H. step_ops. rewrite He. reflexivity.
  - pose proof (perform_trace o (OpStart c) w) as H.
    unfold spawns in H. simpl in H.
    rewrite bool_decide_eq_false_2 in H by exact Hne.
    specialize (H eq_refl). revert H. step_ops.
    destruct (decide _) as [He|_]; [by destruct Hne|].
    match goal with
    | |- context [Output_err ?x] => destruct (Output_err x)
    end; intros H; exact H.
Qed.

Lemma Component_Stop_world (o : Outside) (c : Component) (w : World) :
  snd (Component_Stop o c w) =
    if decide (Component_stop c = EmptyString) then w
    else after w (EvExec (command_of (OpStop c))).
Proof.
  destruct (decide (Component_stop c = EmptyString)) as [He|Hne].
  - pose proof (perform_unconfigured o (OpStop c) w) as H.
    unfold spawns in H. simpl in H. rewrite He in H.
    specialize (H eq_refl). revert H. step_ops. rewrite He. reflexivity.
  - pose proof (perform_trace o (OpStop c) w) as H.
    unfold spawns in H. simpl in H.
    rewrite bool_decide_eq_false_2 in H by exact Hne.
    specialize (H eq_refl). revert H. step_ops.
    destruct (decide _) as [He|_]; [by destruct Hne|].
    match goal with
    | |- context [Output_err ?x] => destruct (Output_err x)
    end; intros H; exact H.
Qed.

(** [Run] on a running component: nothing happens. *)
Lemma component_Run_running (o : Outside) (c : component) (w : World) :
  agents w !! started c = Some true ->
  component_Run o c w = (None, w).
Proof.
  intros Hr. unfold component_Run, agent_Send, agent_Deref, agent_store, bind, ret.
  rewrite Hr. simpl. f_equal. destruct w as [tr ag fr]. simpl in *.
  f_equal. apply insert_id. exact Hr.
Qed.

(** [Run] on a component that is not running: the start script, then the
    bus registration, whose result is the result of [Run]. *)
Lemma component_Run_stopped (o : Outside) (c : component) (w : World) :
  default false (agents w !! started c) = false ->
  let w1 := snd (Component_Start o (meta c) w) in
  let err := vci_Run o (trace w1) (vci_id (vci c)) in
  component_Run o c w =
    (err, {| trace := trace w1 ++ [EvVciRun (vci_id (vci c))];
             agents := <[started c := is_nil err]> (agents w);
             fresh := fresh w |}).
Proof.
  intros Hr w1 err.
  assert (Hag : agents w1 = agents w /\ fresh w1 = fresh w).
  { subst w1. rewrite Component_Start_world. destruct (decide _); split; reflexivity. }
  destruct Hag as [Hag Hfr].
  unfold component_Run, agent_Send, agent_Deref, agent_store, bind, ret, emit.
  rewrite Hr. fold w1.
  destruct (Component_Start o (meta c) w) as [e w1'] eqn:Hst.
  simpl in w1. subst w1. fold err.
  destruct err; simpl; rewrite ?Hag, ?Hfr; reflexivity.
Qed.

Lemma component_Stop_stopped (o : Outside) (c : component) (w : World) :
  agents w !! started c = Some false ->
  component_Stop o c w = (None, w).
Proof.
  intros Hr. unfold component_Stop, agent_Send, agent_Deref, agent_store, bind, ret.
  rewrite Hr. simpl. f_equal. destruct w as [tr ag fr]. simpl in *.
  f_equal. apply insert_id. exact Hr.
Qed.

Lemma component_Stop_running (o : Outside) (c : component) (w : World) :
  default false (agents w !! started c) = true ->
  let w1 := snd (Component_Stop o (meta c) w) in
  let err := vci_Stop o (trace w1) (vci_id (vci c)) in
  component_Stop o c w =
    (err, {| trace := trace w1 ++ [EvVciStop (vci_id (vci c))];
             agents := <[started c := negb (is_nil err)]> (agents w);
             fresh := fresh w |}).
Proof.
  intros Hr w1 err.
  assert (Hag : agents w1 = agents w /\ fresh w1 = fresh w).
  { subst w1. rewrite Component_Stop_world. destruct (decide _); split; reflexivity. }
  destruct Hag as [Hag Hfr].
  unfold component_Stop, agent_Send, agent_Deref, agent_store, bind, ret, emit.
  rewrite Hr. cbn [negb]. fold w1.
  destruct (Component_Stop o (meta c) w) as [e w1'] eqn:Hst.
  simpl in w1. subst w1. fold err.
  destruct err; simpl; rewrite ?Hag, ?Hfr; reflexivity.
Qed.

(** C1, as stated, fails when the start script fails and the bus accepts
    the registration: [Run] drops the result of [c.meta.Start()], returns
    success and sets the running flag. *)
Lemma C1_failed_start_script_is_dropped :
  Output_err (cmd_Output outside_scripts_fail (trace toaster_stopped)
                (command_of (OpStart toaster_meta))) = true
  /\ fst (Component_Start outside_scripts_fail toaster_meta toaster_stopped)
     = Some (ErrExec "no")
  /\ fst (component_Run outside_scripts_fail toaster toaster_stopped) = None
  /\ agents (snd (component_Run outside_scripts_fail toaster toaster_stopped))
       !! started toaster = Some true
  /\ fst (Activate outside_scripts_fail {[ "toaster" := toaster ]} "toaster"
            toaster_stopped) = (Some TreeNew, None).
Proof. repeat split; vm_compute; reflexivity. Qed.

(** C1, amended. On a component that is not running, [Run] returns the
    result of the bus registration and leaves the running flag true
    exactly when the registration succeeded, whatever the start script
    did: a failed registration leaves the flag false and is returned to the
    caller, and a failed Activate leaves the component not running. *)
Theorem C1_run_returns_registration_result
    (o : Outside) (c : component) (w : World)
    (cs : gmap string component) (name : string) :
  default false (agents w !! started c) = false ->
  cs !! name = Some c ->
  let err := vci_Run o (trace (snd (Component_Start o (meta c) w)))
               (vci_id (vci c)) in
  fst (component_Run o c w) = err
  /\ agents (snd (component_Run o c w)) !! started c = Some (is_nil err)
  /\ (forall e, err = Some e ->
        fst (Activate o cs name w) = (None, Some e)
        /\ agents (snd (Activate o cs name w)) !! started c = Some false).
Proof.
  intros Hr Hcs err.
  pose proof (component_Run_stopped o c w Hr) as Hrun. simpl in Hrun.
  fold err in Hrun.
  split; [rewrite Hrun; reflexivity|].
  split; [rewrite Hrun; simpl; apply lookup_insert_eq|].
  intros e He. unfold Activate, bind, ret. rewrite Hcs, Hrun, He. simpl.
  split; [reflexivity | apply lookup_insert_eq].
Qed.

Lemma C1_run_returns_registration_result_witness :
  fst (component_Run outside_bus_fails toaster toaster_stopped)
    = Some (ErrLib "bus: not connected")
  /\ agents (snd (component_Run outside_bus_fails toaster toaster_stopped))
       !! started toaster = Some false
  /\ (forall e, Some (ErrLib "bus: not connected") = Some e ->
        fst (Activate outside_bus_fails {[ "toaster" := toaster ]} "toaster"
               toaster_stopped) = (None, Some e)
        /\ agents (snd (Activate outside_bus_fails {[ "toaster" := toaster ]}
                          "toaster" toaster_stopped))
             !! started toaster = Some false).
Proof.
  apply (C1_run_returns_registration_result outside_bus_fails toaster
           toaster_stopped {[ "toaster" := toaster ]} "toaster");
    reflexivity.
Defined.

Lemma invocations_app (message : string) (tr tr' : list Event) :
  invocations message (tr ++ tr') =
    invocations message tr + invocations message tr'.
Proof. unfold invocations. rewrite List.filter_app, length_app. reflexivity. Qed.

Lemma invocations_one (message : string) (e : Event) :
  invocations message [e] = if runs_script message e then 1 else 0.
Proof. unfold invocations. simpl. destruct (runs_script message e); reflexivity. Qed.

Lemma runs_script_label (op : Operation) :
  runs_script (op_label op) (EvExec (command_of op)) = true.
Proof.
  unfold runs_script. apply bool_decide_eq_true. simpl.
  do 2 apply list_elem_of_further. apply list_elem_of_here.
Qed.

(** C7, as stated, fails when the bus refuses the call: the flag keeps
    its value, and the second call runs the script again. *)
Lemma C7_script_runs_twice_when_bus_refuses :
  let r1 := component_Run outside_bus_fails toaster toaster_stopped in
  let r2 := component_Run outside_bus_fails toaster (snd r1) in
  let s1 := component_Stop outside_bus_fails toaster toaster_running in
  let s2 := component_Stop outside_bus_fails toaster (snd s1) in
  agents toaster_stopped !! started toaster = Some false
  /\ invocations "Start" (trace (snd r2)) = 2
  /\ agents toaster_running !! started toaster = Some true
  /\ invocations "Stop" (trace (snd s2)) = 2.
Proof. repeat split; vm_compute; reflexivity. Qed.

Lemma Component_Start_count (o : Outside) (c : Component) (w : World) :
  invocations "Start" (trace (snd (Component_Start o c w)))
  = invocations "Start" (trace w)
    + (if decide (Component_start c = EmptyString) then 0 else 1).
Proof.
  rewrite Component_Start_world.
  destruct (decide (Component_start c = EmptyString)); [lia|].
  unfold after. simpl. rewrite invocations_app, invocations_one.
  change (runs_script "Start" (EvExec (command_of (OpStart c))))
    with (runs_script (op_label (OpStart c)) (EvExec (command_of (OpStart c)))).
  rewrite runs_script_label. reflexivity.
Qed.

Lemma Component_Stop_count (o : Outside) (c : Component) (w : World) :
  invocations "Stop" (trace (snd (Component_Stop o c w)))
  = invocations "Stop" (trace w)
    + (if decide (Component_stop c = EmptyString) then 0 else 1).
Proof.
  rewrite Component_Stop_world.
  destruct (decide (Component_stop c = EmptyString)); [lia|].
  unfold after. simpl. rewrite invocations_app, invocations_one.
  change (runs_script "Stop" (EvExec (command_of (OpStop c))))
    with (runs_script (op_label (OpStop c)) (EvExec (command_of (OpStop c)))).
  rewrite runs_script_label. reflexivity.
Qed.

(** [Stop] on a component whose agent does not hold [true]: nothing runs,
    and the agent holds [false] afterwards. *)
Lemma component_Stop_not_running (o : Outside) (c : component) (w : World) :
  default false (agents w !! started c) = false ->
  component_Stop o c w =
    (None, {| trace := trace w;
              agents := <[started c := false]> (agents w);
              fresh := fresh w |}).
Proof.
  intros Hr. unfold component_Stop, agent_Send, agent_Deref, agent_store, bind, ret.
  rewrite Hr. reflexivity.
Qed.

(** C7, amended. On a component that is not running, when the first
    [Run] succeeds a second [Run] in direct succession is a no-op that
    returns success, and the two calls invoke the start script once (not
    at all when no start command is configured); when the first [Run]
    fails the flag stays false and the second [Run] runs the start script
    again. When the first [Stop] succeeds, a second [Stop] is a no-op that
    returns success, and the two calls invoke the stop script at most
    once; when the first [Stop] fails the flag stays true and the second
    [Stop] runs the stop script again. *)
Theorem C7_second_call (o : Outside) (c : component) (w : World) :
  let starts := if decide (Component_start (meta c) = EmptyString) then 0 else 1 in
  let stops := if decide (Component_stop (meta c) = EmptyString) then 0 else 1 in
  let r1 := component_Run o c w in
  let r2 := component_Run o c (snd r1) in
  let s1 := component_Stop o c w in
  let s2 := component_Stop o c (snd s1) in
  (default false (agents w !! started c) = false ->
     (fst r1 = None ->
        r2 = (None, snd r1)
        /\ invocations "Start" (trace (snd r2))
           = invocations "Start" (trace w) + starts)
     /\ (fst r1 <> None ->
         agents (snd r1) !! started c = Some false
         /\ invocations "Start" (trace (snd r2))
            = invocations "Start" (trace w) + 2 * starts))
  /\ (fst s1 = None ->
      s2 = (None, snd s1)
      /\ invocations "Stop" (trace (snd s2))
         <= invocations "Stop" (trace w) + 1)
  /\ (fst s1 <> None ->
      agents (snd s1) !! started c = Some true
      /\ invocations "Stop" (trace (snd s2))
         = invocations "Stop" (trace w) + 2 * stops).
Proof.
  intros starts stops r1 r2 s1 s2. split; [|split].
  - intros Hr.
    pose proof (component_Run_stopped o c w Hr) as Hrun. simpl in Hrun.
    fold r1 in Hrun.
    pose proof (Component_Start_count o (meta c) w) as Hc1. fold starts in Hc1.
    split.
    + intros Hr1.
      assert (Hflag : agents (snd r1) !! started c = Some true).
      { rewrite Hrun in Hr1 |- *. simpl in Hr1 |- *. rewrite Hr1.
        apply lookup_insert_eq. }
      assert (H2 : r2 = (None, snd r1)).
      { subst r2. apply component_Run_running. exact Hflag. }
      split; [exact H2|]. rewrite H2. simpl. rewrite Hrun. simpl.
      rewrite invocations_app, invocations_one, Hc1. simpl. lia.
    + intros Hr1.
      assert (Hflag : agents (snd r1) !! started c = Some false).
      { rewrite Hrun in Hr1 |- *. simpl in Hr1 |- *.
        destruct (vci_Run _ _ _); [apply lookup_insert_eq | congruence]. }
      split; [exact Hflag|].
      assert (Hr' : default false (agents (snd r1) !! started c) = false)
        by (rewrite Hflag; reflexivity).
      pose proof (component_Run_stopped o c (snd r1) Hr') as Hrun2.
      simpl in Hrun2. fold r2 in Hrun2. rewrite Hrun2. simpl.
      rewrite invocations_app, invocations_one, Component_Start_count.
      fold starts. rewrite Hrun. simpl.
      rewrite invocations_app, invocations_one, Hc1. simpl. lia.
  - intros Hs1. destruct (default false (agents w !! started c)) eqn:Hr.
    + pose proof (component_Stop_running o c w Hr) as Hstop.
      simpl in Hstop. fold s1 in Hstop.
      assert (Hflag : agents (snd s1) !! started c = Some false).
      { rewrite Hstop in Hs1 |- *. simpl in Hs1 |- *. rewrite Hs1.
        apply lookup_insert_eq. }
      assert (H2 : s2 = (None, snd s1)).
      { subst s2. apply component_Stop_stopped. exact Hflag. }
      split; [exact H2|]. rewrite H2. simpl. rewrite Hstop. simpl.
      rewrite invocations_app, invocations_one, Component_Stop_count. simpl.
      destruct (decide (Component_stop (meta c) = EmptyString)); lia.
    + pose proof (component_Stop_not_running o c w Hr) as Hstop.
      fold s1 in Hstop.
      assert (H2 : s2 = (None, snd s1)).
      { subst s2. apply component_Stop_stopped. rewrite Hstop. simpl.
        apply lookup_insert_eq. }
      split; [exact H2|]. rewrite H2, Hstop. simpl. lia.
  - intros Hs1. destruct (default false (agents w !! started c)) eqn:Hr.
    + pose proof (component_Stop_running o c w Hr) as Hstop.
      simpl in Hstop. fold s1 in Hstop.
      pose proof (Component_Stop_count o (meta c) w) as Hc1. fold stops in Hc1.
      assert (Hflag : agents (snd s1) !! started c = Some true).
      { rewrite Hstop in Hs1 |- *. simpl in Hs1 |- *.
        destruct (vci_Stop _ _ _); [apply lookup_insert_eq | congruence]. }
      split; [exact Hflag|].
      assert (Hr' : default false (agents (snd s1) !! started c) = true)
        by (rewrite Hflag; reflexivity).
      pose proof (component_Stop_running o c (snd s1) Hr') as Hstop2.
      simpl in Hstop2. fold s2 in Hstop2. rewrite Hstop2. simpl.
      rewrite invocations_app, invocations_one, Component_Stop_count.
      fold stops. rewrite Hstop. simpl.
      rewrite invocations_app, invocations_one, Hc1. simpl. lia.
    + exfalso. apply Hs1. subst s1.
      rewrite (component_Stop_not_running o c w Hr). reflexivity.
Qed.

Lemma C7_second_call_witness :
  (component_Run outside_ok toaster
     (snd (component_Run outside_ok toaster toaster_stopped))
   = (None, snd (component_Run outside_ok toaster toaster_stopped))
   /\ invocations "Start"
        (trace (snd (component_Run outside_ok toaster
                       (snd (component_Run outside_ok toaster toaster_stopped)))))
      = invocations "Start" (trace toaster_stopped) + 1)
  /\ (agents (snd (component_Run outside_bus_fails toaster toaster_stopped))
        !! started toaster = Some false
      /\ invocations "Start"
           (trace (snd (component_Run outside_bus_fails toaster
                          (snd (component_Run outside_bus_fails toaster
                                  toaster_stopped)))))
         = invocations "Start" (trace toaster_stopped) + 2 * 1)
  /\ (component_Stop outside_ok toaster
        (snd (component_Stop outside_ok toaster toaster_running))
      = (None, snd (component_Stop outside_ok toaster toaster_running))
      /\ invocations "Stop"
           (trace (snd (component_Stop outside_ok toaster
                          (snd (component_Stop outside_ok toaster toaster_running)))))
         <= invocations "Stop" (trace toaster_running) + 1)
  /\ (agents (snd (component_Stop outside_bus_fails toaster toaster_running))
        !! started toaster = Some true
      /\ invocations "Stop"
           (trace (snd (component_Stop outside_bus_fails toaster
                          (snd (component_Stop outside_bus_fails toaster
                                  toaster_running)))))
         = invocations "Stop" (trace toaster_running) + 2 * 1).
Proof.
  split; [|split; [|split]].
  - apply (proj1 (C7_second_call outside_ok toaster toaster_stopped));
      reflexivity.
  - apply (proj1 (C7_second_call outside_bus_fails toaster toaster_stopped));
      [reflexivity | discriminate].
  - apply (proj1 (proj2 (C7_second_call outside_ok toaster toaster_running))).
    reflexivity.
  - apply (proj2 (proj2 (C7_second_call outside_bus_fails toaster toaster_running))).
    discriminate.
Defined.

(** ** The bus operation dispatcher *)

(** C9. A request that names a component absent from the snapshot gets
    the not-found error and nothing is started or stopped (the world is
    unchanged); a request that names a present component gets the result
    of its [Run] (for Activate) or [Stop] (for Deactivate): the empty tree
    on success, the error on failure. *)
Theorem C9_dispatcher
    (o : Outside) (cs : gmap string component) (name : string) (w : World) :
  let reply (err : option error) : option Tree * option error :=
    match err with
    | Some e => (None, Some e)
    | None => (Some TreeNew, None)
    end in
  let not_found :=
    ErrNew ("no component by the name " +:+ name +:+ " found") in
  match cs !! name with
  | None =>
      Activate o cs name w = ((None, Some not_found), w)
      /\ Deactivate o cs name w = ((None, Some not_found), w)
  | Some comp =>
      Activate o cs name w
        = (reply (fst (component_Run o comp w)), snd (component_Run o comp w))
      /\ Deactivate o cs name w
        = (reply (fst (component_Stop o comp w)), snd (component_Stop o comp w))
  end.
Proof.
  intros reply not_found. unfold Activate, Deactivate, bind, ret.
  destruct (cs !! name) as [comp|]; [|split; reflexivity].
  destruct (component_Run o comp w) as [[e|] w1];
    destruct (component_Stop o comp w) as [[e'|] w2];
    split; reflexivity.
Qed.

(** ** Structural equality *)

Lemma forallb_map_to_list {V : Type} (f : string * V -> bool) (m : gmap string V) :
  forallb f (map_to_list m) = true <->
  forall k v, m !! k = Some v -> f (k, v) = true.
Proof.
  rewrite forallb_forall. split.
  - intros H k v Hkv. apply H, list_elem_of_In, elem_of_map_to_list. exact Hkv.
  - intros H [k v] Hin. apply H, elem_of_map_to_list, list_elem_of_In. exact Hin.
Qed.

Lemma rpc_covered_spec (a b : gmap string (gmap string string)) :
  rpc_covered a b = true <->
  forall module names, a !! module = Some names ->
    exists oNames, b !! module = Some oNames
      /\ forall name script, names !! name = Some script ->
           names_at oNames name = script.
Proof.
  unfold rpc_covered. rewrite forallb_map_to_list. split.
  - intros H module names Ha. specialize (H module names Ha). simpl in H.
    destruct (b !! module) as [oNames|]; [|discriminate].
    exists oNames. split; [reflexivity|].
    intros name script Hn.
    rewrite forallb_map_to_list in H. specialize (H name script Hn).
    apply bool_decide_eq_true in H. exact H.
  - intros H module names Ha. destruct (H module names Ha) as (oNames & Hb & Hs).
    simpl. rewrite Hb. apply forallb_map_to_list.
    intros name script Hn. apply bool_decide_eq_true. simpl. eauto.
Qed.

Lemma rpc_covered_refl (a : gmap string (gmap string string)) :
  rpc_covered a a = true.
Proof.
  apply rpc_covered_spec. intros module names Ha. exists names.
  split; [exact Ha|]. intros name script Hn. unfold names_at. rewrite Hn.
  reflexivity.
Qed.

Lemma rpc_Equal_true (r or : rpc) :
  rpc_Equal r or = true ->
  rpc_covered (rpc_modules r) (rpc_modules or) = true
  /\ rpc_covered (rpc_modules or) (rpc_modules r) = true.
Proof.
  unfold rpc_Equal. destruct (negb _); [discriminate|].
  intros H. apply andb_true_iff in H. exact H.
Qed.

(** Equal RPC records read the same script at every module and name. *)
Lemma rpc_Equal_script_at (r or : rpc) (module name : string) :
  rpc_Equal r or = true ->
  script_at (rpc_modules r) module name = script_at (rpc_modules or) module name.
Proof.
  intros H. apply rpc_Equal_true in H as [H1 H2].
  rewrite rpc_covered_spec in H1, H2. unfold script_at.
  destruct (rpc_modules r !! module) as [n1|] eqn:E1.
  - destruct (H1 module n1 E1) as (n2 & E2 & Hs1). rewrite E2. simpl.
    destruct (H2 module n2 E2) as (n1' & E1' & Hs2).
    assert (n1' = n1) by congruence. subst n1'.
    destruct (n1 !! name) as [s|] eqn:En1.
    + rewrite (Hs1 name s En1). unfold names_at. rewrite En1. reflexivity.
    + destruct (n2 !! name) as [s'|] eqn:En2.
      * specialize (Hs2 name s' En2). unfold names_at in *.
        rewrite En1, En2 in *. simpl in *. exact Hs2.
      * unfold names_at. rewrite En1, En2. reflexivity.
  - destruct (rpc_modules or !! module) as [n2|] eqn:E2; [|reflexivity].
    destruct (H2 module n2 E2) as (n1' & E1' & _). congruence.
Qed.

Lemma rpc_Equal_same_modules (r or : rpc) :
  rpc_modules r = rpc_modules or -> rpc_Equal r or = true.
Proof.
  intros H. unfold rpc_Equal. rewrite H.
  rewrite bool_decide_eq_true_2 by reflexivity. simpl.
  rewrite rpc_covered_refl. reflexivity.
Qed.

(** [config.Equal] and [state.Equal] do not look at the component and model
    names kept in the records. *)
Lemma config_Equal_spec (c oc : config) :
  config_Equal c oc = true <->
  config_get c = config_get oc /\ config_set c = config_set oc
  /\ config_check c = config_check oc.
Proof.
  unfold config_Equal. rewrite !andb_true_iff, !bool_decide_eq_true. tauto.
Qed.

Lemma state_Equal_spec (c os : state) :
  state_Equal c os = true <-> state_get c = state_get os.
Proof. unfold state_Equal. apply bool_decide_eq_true. Qed.

Lemma Model_Equal_same_commands (m1 m2 : Model) :
  same_commands m1 m2 -> Model_Equal m1 m2 = true.
Proof.
  intros (Hn & Hc & Hs & Hr). unfold Model_Equal.
  rewrite bool_decide_eq_true_2 by exact Hn. simpl.
  repeat (apply andb_true_iff; split).
  - destruct Hc as [c1 c2 Hc|]; simpl; [|reflexivity].
    apply config_Equal_spec. exact Hc.
  - destruct Hs as [s1 s2 Hs|]; simpl; [|reflexivity].
    apply state_Equal_spec. exact Hs.
  - destruct Hr as [r1 r2 Hr|]; simpl; [|reflexivity].
    apply rpc_Equal_same_modules. exact Hr.
Qed.

Lemma same_commands_refl (m : Model) : same_commands m m.
Proof.
  unfold same_commands. repeat split.
  - destruct (Model_config m); constructor. tauto.
  - destruct (Model_state m); constructor. reflexivity.
  - destruct (Model_rpc m); constructor. reflexivity.
Qed.




Lemma models_covered_refl (a : gmap string Model) : models_covered a a = true.
Proof.
  unfold models_covered. apply forallb_map_to_list. intros k v Hkv. simpl.
  rewrite Hkv. simpl. apply Model_Equal_same_commands, same_commands_refl.
Qed.

(** Components with the same name, start, stop and models are equal,
    whatever their instance files. *)
Lemma Component_Equal_same (c oc : Component) :
  Component_name c = Component_name oc ->
  Component_start c = Component_start oc ->
  Component_stop c = Component_stop oc ->
  Component_models c = Component_models oc ->
  Component_Equal c oc = true.
Proof.
  intros Hn Hs Ht Hm. unfold Component_Equal, equalModels.
  rewrite Hn, Hs, Ht, Hm. rewrite !bool_decide_eq_true_2 by reflexivity.
  simpl. rewrite models_covered_refl. reflexivity.
Qed.

Lemma Component_Equal_refl (c : Component) : Component_Equal c c = true.
Proof. apply Component_Equal_same; reflexivity. Qed.




Lemma Component_Equal_From (file : string) (c oc : Component) :
  Component_Equal (From file c) oc = Component_Equal c oc
  /\ Component_Equal c (From file oc) = Component_Equal c oc.
Proof. split; reflexivity. Qed.

Lemma config_Equal_ignores_names (comp model comp' model' g s k : string) (oc : config) :
  config_Equal
    {| config_compName := comp; config_modelName := model;
       config_get := g; config_set := s; config_check := k |} oc
  = config_Equal
      {| config_compName := comp'; config_modelName := model';
         config_get := g; config_set := s; config_check := k |} oc.
Proof. reflexivity. Qed.

Lemma state_Equal_ignores_names (comp model comp' model' g : string) (os : state) :
  state_Equal {| state_compName := comp; state_modelName := model; state_get := g |} os
  = state_Equal {| state_compName := comp'; state_modelName := model'; state_get := g |} os.
Proof. reflexivity. Qed.

Lemma New_From (o : Outside) (path : string) (cfg : ini.File) :
  ini_Load o path = inr cfg ->
  exists c, New o [From path] = inr c
    /\ instanceFile c = path
    /\ Component_name c =
         ini.MustString (ini.Key cfg (ini.Section cfg "Component") "Name") EmptyString
    /\ Component_start c =
         ini.MustString (ini.Key cfg (ini.Section cfg "Component") "Start") EmptyString
    /\ Component_stop c =
         ini.MustString (ini.Key cfg (ini.Section cfg "Component") "Stop") EmptyString
    /\ Component_models c =
         foldl (instantiate_section cfg (Component_name c)) ∅ cfg.
Proof.
  intros Hload. unfold New, instantiate. simpl. rewrite Hload.
  eexists. split; [reflexivity|]. repeat split.
Qed.

(** C10. Two components parsed from the same content under different
    paths are equal: [Component.Equal] compares name, start, stop and
    models and not the instance file. A reconciliation that finds the
    content of a known component under a new path keeps the old runtime
    component and collects no stop action for it. *)
Theorem C10_equality_ignores_the_instance_file
    (o : Outside) (p1 p2 : string) (cfg : ini.File) :
  ini_Load o p1 = inr cfg ->
  ini_Load o p2 = inr cfg ->
  exists c1 c2,
    New o [From p1] = inr c1 /\ New o [From p2] = inr c2
    /\ instanceFile c1 = p1 /\ instanceFile c2 = p2
    /\ Component_Equal c1 c2 = true
    /\ Component_Equal c2 c1 = true
    /\ forall (old : gmap string component) (oc nc : component),
         meta oc = c1 -> meta nc = c2 ->
         old !! Component_name c2 = Some oc ->
         swapper_entry old (Component_name c2) nc = Some oc
         /\ sync_changed_entry old (Component_name c2, nc) = None
         /\ sync_changed_entry old (Component_name c2, oc) = None.
Proof.
  intros H1 H2.
  destruct (New_From o p1 cfg H1) as (c1 & N1 & F1 & Hn1 & Hs1 & Ht1 & Hm1).
  destruct (New_From o p2 cfg H2) as (c2 & N2 & F2 & Hn2 & Hs2 & Ht2 & Hm2).
  assert (E21 : Component_Equal c2 c1 = true).
  { apply Component_Equal_same; congruence. }
  assert (E12 : Component_Equal c1 c2 = true).
  { apply Component_Equal_same; congruence. }
  exists c1, c2. repeat (split; [assumption|]).
  intros old oc nc Hoc Hnc Hold.
  unfold swapper_entry, sync_changed_entry. simpl. rewrite Hold, Hoc, Hnc.
  simpl. rewrite E21, Component_Equal_refl. repeat split.
Qed.

Lemma C10_equality_ignores_the_instance_file_witness :
  exists c1 c2,
    New outside_instances [From "/lib/vci/ephemera/instances/toaster.instance"]
      = inr c1
    /\ New outside_instances [From "/lib/vci/ephemera/instances/renamed.instance"]
      = inr c2
    /\ instanceFile c1 = "/lib/vci/ephemera/instances/toaster.instance"
    /\ instanceFile c2 = "/lib/vci/ephemera/instances/renamed.instance"
    /\ Component_Equal c1 c2 = true
    /\ Component_Equal c2 c1 = true
    /\ forall (old : gmap string component) (oc nc : component),
         meta oc = c1 -> meta nc = c2 ->
         old !! Component_name c2 = Some oc ->
         swapper_entry old (Component_name c2) nc = Some oc
         /\ sync_changed_entry old (Component_name c2, nc) = None
         /\ sync_changed_entry old (Component_name c2, oc) = None.
Proof.
  apply (C10_equality_ignores_the_instance_file outside_instances
           "/lib/vci/ephemera/instances/toaster.instance"
           "/lib/vci/ephemera/instances/renamed.instance"
           toaster_instance);
    reflexivity.
Defined.

(** ** Registry and reconciliation *)

Lemma scan_frame_refl (w : World) : scan_frame w w.
Proof. repeat split. lia. Qed.

Lemma scan_frame_trans (w1 w2 w3 : World) :
  scan_frame w1 w2 -> scan_frame w2 w3 -> scan_frame w1 w3.
Proof.
  intros (T1 & F1 & A1) (T2 & F2 & A2). repeat split.
  - congruence.
  - lia.
  - intros a Ha. rewrite A2 by lia. apply A1. exact Ha.
Qed.

Lemma readAllComponents_entry_frame (o : Outside) (dir : string)
    (cs : gmap string component) (fi : string * bool) (w : World) :
  scan_frame w (snd (readAllComponents_entry o dir cs fi w)).
Proof.
  unfold readAllComponents_entry. destruct (snd fi); [apply scan_frame_refl|].
  destruct (New o _) as [err|comp]; [apply scan_frame_refl|].
  unfold createVCIComponent, newComponent, new_id, agent_New, bind, ret. simpl.
  repeat split; simpl.
  - lia.
  - intros a Ha. apply lookup_insert_ne. lia.
Qed.

Lemma readAllComponents_loop_frame (o : Outside) (dir : string)
    (entries : list (string * bool)) (cs : gmap string component) (w : World) :
  scan_frame w (snd (readAllComponents_loop o dir cs entries w)).
Proof.
  revert cs w. induction entries as [|fi rest IH]; intros cs w.
  - apply scan_frame_refl.
  - simpl. unfold bind.
    pose proof (readAllComponents_entry_frame o dir cs fi w) as H1.
    destruct (readAllComponents_entry o dir cs fi w) as [cs' w'].
    eapply scan_frame_trans; [exact H1 | apply IH].
Qed.

Lemma readAllComponents_frame (o : Outside) (dir : string) (w : World) :
  scan_frame w (snd (readAllComponents o dir w)).
Proof.
  unfold readAllComponents. destruct (ioutil_ReadDir o dir).
  - apply readAllComponents_loop_frame.
  - apply scan_frame_refl.
Qed.

Lemma sync_actions_same (old : gmap string component) : sync_actions old old = [].
Proof.
  unfold sync_actions, sync_removed, sync_changed.
  assert (H : forall l : list (string * component),
             (forall nc, nc ∈ l -> old !! fst nc = Some (snd nc)) ->
             filter (fun nc => old !! fst nc = None) l = []
             /\ omap (sync_changed_entry old) l = []).
  { induction l as [|nc l IH]; intros Hl; [split; reflexivity|].
    assert (Hnc : old !! fst nc = Some (snd nc)) by (apply Hl; left).
    destruct IH as [IH1 IH2]; [intros x Hx; apply Hl; right; exact Hx|].
    split.
    - rewrite filter_cons_False by (rewrite Hnc; discriminate). exact IH1.
    - simpl. unfold sync_changed_entry at 1. rewrite Hnc. simpl.
      rewrite Component_Equal_refl. exact IH2. }
  destruct (H (map_to_list old)) as [H1 H2].
  - intros [k v] Hkv. apply elem_of_map_to_list. exact Hkv.
  - rewrite H1, H2. reflexivity.
Qed.

Lemma equal_to_predecessors_spec (new old : gmap string component) :
  equal_to_predecessors new old = true <->
  forall name nc oc, new !! name = Some nc -> old !! name = Some oc ->
    Component_Equal (meta nc) (meta oc) = true.
Proof.
  unfold equal_to_predecessors. rewrite forallb_map_to_list. split.
  - intros H name nc oc Hn Ho. specialize (H name nc Hn). simpl in H.
    rewrite Ho in H. exact H.
  - intros H name nc Hn. simpl. destruct (old !! name) as [oc|] eqn:Ho; eauto.
Qed.

(** C2. When a scan finds the names of the old snapshot and, under each
    name, a definition structurally equal to the old one, the new snapshot
    is the old snapshot (the same runtime components, with their agents
    and bus registrations), no stop action is collected, no script and no
    bus operation runs, and the running flag of every agent that existed
    before the pass is what it was. *)
Theorem C2_unchanged_definitions_keep_their_components
    (o : Outside) (instanceDir : string)
    (old : gmap string component) (w : World) :
  let scan := fst (readAllComponents o instanceDir w) in
  dom scan = (dom old : gset string) ->
  (forall name nc oc, scan !! name = Some nc -> old !! name = Some oc ->
     Component_Equal (meta nc) (meta oc) = true) ->
  let r := reconcile o instanceDir old w in
  fst r = old
  /\ sync_actions old (fst r) = []
  /\ trace (snd r) = trace w
  /\ (forall a, a < fresh w -> agents (snd r) !! a = agents w !! a).
Proof.
  intros scan Hdom Heq r.
  pose proof (readAllComponents_frame o instanceDir w) as (Ht & _ & Ha).
  subst r scan. unfold reconcile, swapper, syncComponents, bind, ret.
  destruct (readAllComponents o instanceDir w) as [new w1]. simpl in *.
  assert (Hnew : map_imap (swapper_entry old) new = old).
  { apply map_eq. intros k. rewrite map_lookup_imap.
    destruct (new !! k) as [nc|] eqn:Hn; simpl.
    - assert (Hk : k ∈ (dom old : gset string)).
      { rewrite <- Hdom. apply elem_of_dom. eauto. }
      apply elem_of_dom in Hk as [oc Ho].
      unfold swapper_entry. rewrite Ho. simpl.
      rewrite (Heq k nc oc Hn Ho). reflexivity.
    - symmetry. apply not_elem_of_dom. rewrite <- Hdom.
      apply not_elem_of_dom. exact Hn. }
  rewrite Hnew, sync_actions_same. simpl. repeat split; auto using sync_actions_same.
Qed.

Lemma C2_unchanged_definitions_keep_their_components_witness :
  let r := reconcile outside_instances instances (fst first_scan) (snd first_scan) in
  fst r = fst first_scan
  /\ sync_actions (fst first_scan) (fst r) = []
  /\ trace (snd r) = trace (snd first_scan)
  /\ (forall a, a < fresh (snd first_scan) ->
        agents (snd r) !! a = agents (snd first_scan) !! a).
Proof.
  apply (C2_unchanged_definitions_keep_their_components outside_instances
           instances (fst first_scan) (snd first_scan)).
  - vm_compute. reflexivity.
  - apply equal_to_predecessors_spec. vm_compute. reflexivity.
Defined.

(** The first scan of the example directory finds the toaster, skips the
    subdirectory and the file that does not load, and starts nothing. *)
Example first_scan_finds_toaster :
  (dom (fst first_scan) : gset string) = {[ "toaster" ]}
  /\ (meta <$> fst first_scan !! "toaster")
     = Some (instantiate_loaded toaster_instance
               (From "/lib/vci/ephemera/instances/toaster.instance"
                  {| instanceFile := EmptyString;
                     Component_name := EmptyString;
                     Component_start := EmptyString;
                     Component_stop := EmptyString;
                     Component_models := ∅ |}))
  /\ (started <$> fst first_scan !! "toaster") = Some 1
  /\ agents (snd first_scan) !! 1 = Some false
  /\ trace (snd first_scan) = [].
Proof. repeat split; vm_compute; reflexivity. Qed.

(** ** The instance definition parser *)

Lemma Key_is_not_nil (cfg : ini.File) (section : ini.IniSection) (name : string) :
  ini.Key cfg section name <> None.
Proof. discriminate. Qed.

Lemma MustString_Key (cfg : ini.File) (section : ini.IniSection) (name : string) :
  ini.MustString (ini.Key cfg section name) EmptyString
  = default EmptyString (ini.GetKey cfg section name).
Proof.
  unfold ini.MustString, ini.Key.
  destruct (decide _) as [He|_]; [rewrite He|]; reflexivity.
Qed.

Lemma GetKey_own (cfg : ini.File) (section : ini.IniSection) (name value : string) :
  ini.own_key section name = Some value ->
  ini.GetKey cfg section name = Some value.
Proof. intros H. unfold ini.GetKey. rewrite H. reflexivity. Qed.

(** The command strings of a model are the values of the keys of its
    section. *)
Lemma modelNew_own_keys (cfg : ini.File) (compName name : string)
    (section : ini.IniSection) (key value : string) :
  ini.own_key section key = Some value ->
  let m := modelNew cfg compName name section in
  (key = "Config/Get" -> config_get <$> Model_config m = Some value)
  /\ (key = "Config/Set" -> config_set <$> Model_config m = Some value)
  /\ (key = "Config/Check" -> config_check <$> Model_config m = Some value)
  /\ (key = "State/Get" -> state_get <$> Model_state m = Some value).
Proof.
  intros H m. subst m.
  repeat split; intros ->;
    unfold modelNew, configNew, stateNew, ini.Key, ini.MustString; simpl;
    rewrite (GetKey_own cfg section _ value H); simpl;
    destruct (decide (value = EmptyString)) as [->|_]; reflexivity.
Qed.

(** The name, start and stop of a component are the values of the keys of
    the section [Component]. *)
Lemma instantiate_own_keys (cfg : ini.File) (c : Component) (key value : string) :
  ini.own_key (ini.Section cfg "Component") key = Some value ->
  let c' := instantiate_loaded cfg c in
  (key = "Name" -> Component_name c' = value)
  /\ (key = "Start" -> Component_start c' = value)
  /\ (key = "Stop" -> Component_stop c' = value).
Proof.
  intros H c'. subst c'.
  repeat split; intros ->;
    unfold instantiate_loaded, ini.Key, ini.MustString; simpl;
    rewrite (GetKey_own cfg _ _ value H); simpl;
    destruct (decide (value = EmptyString)) as [->|_]; reflexivity.
Qed.

(** The instance definition of the README parses to the component it
    describes. *)
Example toaster_instance_parses :
  New outside_instances [From "/lib/vci/ephemera/instances/toaster.instance"]
  = inr {| instanceFile := "/lib/vci/ephemera/instances/toaster.instance";
           Component_name := "toaster";
           Component_start := "/lib/vci-toaster --action=start";
           Component_stop := "/lib/vci-toaster --action=stop";
           Component_models :=
             {[ "toaster.v1" :=
                  {| Model_name := "toaster.v1";
                     Model_config :=
                       Some {| config_compName := "toaster";
                               config_modelName := "toaster.v1";
                               config_get := "/lib/vci-toaster --action=get-config";
                               config_set := "/lib/vci-toaster --action=commit";
                               config_check := "/lib/vci-toaster --action=validate" |};
                     Model_state :=
                       Some {| state_compName := "toaster";
                               state_modelName := "toaster.v1";
                               state_get := "/lib/vci-toaster --action=get-state" |};
                     Model_rpc :=
                       Some {| rpc_compName := "toaster";
                               rpc_modelName := "toaster.v1";
                               rpc_modules :=
                                 {[ "toaster" :=
                                      {[ "make-toast" := "/lib/vci-toaster --action=make-toast";
                                         "cancel-toast" := "/lib/vci-toaster --action=cancel-toast" ]};
                                    "kitchen" :=
                                      {[ "restock" := "/lib/vci-toaster --action=restock" ]} ]}
                            |} |} ]} |}.
Proof. vm_compute. reflexivity. Qed.

(** C3. [configNew] and [stateNew] never return nil: the keys they test
    come from [Section.Key], which creates a missing key with the empty
    value. A model section without any [Config/] or [State/] key yields a
    model with a Config record and a State record of empty command
    strings; only the RPC record is absent when its keys are. *)
Theorem C3_missing_keys_yield_empty_records
    (cfg : ini.File) (compName modelName : string) (section : ini.IniSection) :
  is_Some (configNew cfg compName modelName section)
  /\ is_Some (stateNew cfg compName modelName section)
  /\ New outside_instances [From "/lib/vci/ephemera/instances/bare.instance"]
     = inr {| instanceFile := "/lib/vci/ephemera/instances/bare.instance";
              Component_name := "bare";
              Component_start := EmptyString;
              Component_stop := EmptyString;
              Component_models :=
                {[ "bare.v1" :=
                     {| Model_name := "bare.v1";
                        Model_config :=
                          Some {| config_compName := "bare";
                                  config_modelName := "bare.v1";
                                  config_get := EmptyString;
                                  config_set := EmptyString;
                                  config_check := EmptyString |};
                        Model_state :=
                          Some {| state_compName := "bare";
                                  state_modelName := "bare.v1";
                                  state_get := EmptyString |};
                        Model_rpc := None |} ]} |}.
Proof.
  split; [|split].
  - unfold configNew, ini.Key. eexists. reflexivity.
  - unfold stateNew, ini.Key. eexists. reflexivity.
  - vm_compute. reflexivity.
Qed.

(** * Further properties *)

(** ** Splitting and joining *)

Lemma strings_Split_nonempty (s : string) (sep : ascii) :
  strings_Split s sep <> [].
Proof.
  destruct s as [|a r]; simpl; [discriminate|].
  destruct (decide (a = sep)); [discriminate|].
  destruct (strings_Split r sep); discriminate.
Qed.

Lemma strings_Join_cons (p : string) (rest : list string) (sep : string) :
  rest <> [] ->
  strings_Join (p :: rest) sep = p +:+ sep +:+ strings_Join rest sep.
Proof. destruct rest; [congruence | reflexivity]. Qed.

Lemma strings_Join_Split (s : string) (sep : ascii) :
  strings_Join (strings_Split s sep) (String sep EmptyString) = s.
Proof.
  induction s as [|a r IH]; simpl; [reflexivity|].
  pose proof (strings_Split_nonempty r sep) as Hne.
  destruct (decide (a = sep)) as [->|Ha].
  - rewrite strings_Join_cons by exact Hne. rewrite IH. reflexivity.
  - destruct (strings_Split r sep) as [|h t]; [congruence|].
    destruct t as [|h' t'].
    + simpl in *. congruence.
    + rewrite strings_Join_cons in IH by discriminate.
      rewrite strings_Join_cons by discriminate.
      change (String a h +:+ String sep EmptyString +:+ strings_Join (h' :: t') (String sep EmptyString))
        with (String a (h +:+ String sep EmptyString +:+ strings_Join (h' :: t') (String sep EmptyString))).
      rewrite IH. reflexivity.
Qed.

Lemma strings_Split_no_sep (s : string) (sep : ascii) :
  has_byte sep s = false -> strings_Split s sep = [s].
Proof.
  induction s as [|a r IH]; simpl; [reflexivity|].
  destruct (decide (a = sep)); [discriminate|].
  intros H. rewrite (IH H). reflexivity.
Qed.

Lemma strings_Split_app (p r : string) (sep : ascii) :
  has_byte sep p = false ->
  strings_Split (p +:+ String sep r) sep = p :: strings_Split r sep.
Proof.
  induction p as [|a p IH]; cbn [has_byte].
  - intros _. change (EmptyString +:+ String sep r) with (String sep r).
    cbn [strings_Split]. destruct (decide (sep = sep)); [reflexivity | contradiction].
  - destruct (decide (a = sep)) as [|Ha]; [discriminate|].
    intros H. change (String a p +:+ String sep r) with (String a (p +:+ String sep r)).
    cbn [strings_Split]. destruct (decide (a = sep)); [contradiction|].
    rewrite (IH H). reflexivity.
Qed.

Lemma strings_Split_parts (s : string) (sep : ascii) (part : string) :
  part ∈ strings_Split s sep -> has_byte sep part = false.
Proof.
  revert part. induction s as [|a r IH]; simpl; intros part Hin.
  - apply list_elem_of_singleton in Hin. subst. reflexivity.
  - destruct (decide (a = sep)) as [->|Ha].
    + apply elem_of_cons in Hin as [->|Hin]; [reflexivity | auto].
    + destruct (strings_Split r sep) as [|h t] eqn:E.
      * apply list_elem_of_singleton in Hin. subst. cbn [has_byte].
        destruct (decide (a = sep)); [contradiction | reflexivity].
      * apply elem_of_cons in Hin as [->|Hin].
        -- cbn [has_byte].
           destruct (decide (a = sep)); [contradiction|]. apply IH. left.
        -- apply IH. right. exact Hin.
Qed.

Lemma strings_HasPrefix_spec (s prefix : string) :
  strings_HasPrefix s prefix = true <-> exists r, s = prefix +:+ r.
Proof.
  revert s. induction prefix as [|p prefix IH]; intros s; simpl.
  - split; [intros _; exists s; reflexivity | destruct s; reflexivity].
  - destruct s as [|a s]; simpl.
    + split; [discriminate | intros [r Hr]; discriminate].
    + destruct (decide (a = p)) as [->|Hne].
      * rewrite IH. split; intros [r Hr]; exists r.
        -- rewrite Hr. reflexivity.
        -- change (String p prefix +:+ r) with (String p (prefix +:+ r)) in Hr.
           congruence.
      * split; [discriminate|]. intros [r Hr].
        change (String p prefix +:+ r) with (String p (prefix +:+ r)) in Hr.
        congruence.
Qed.

(** X1. Splitting a string at a separator and joining the parts with the
    same separator gives the string back, the split is never empty, and
    no part contains the separator: the program and the arguments of a
    command are the command line cut at its spaces, nothing more. *)
Theorem X1_command_line_is_cut_at_spaces (op : Operation) :
  Cmd_Args (command_of op) = strings_Split (command_line op) " "%char
  /\ strings_Join (Cmd_Args (command_of op)) " " = command_line op
  /\ Cmd_Args (command_of op) <> []
  /\ (forall arg, arg ∈ Cmd_Args (command_of op) -> has_byte " "%char arg = false).
Proof.
  assert (H : Cmd_Args (command_of op) = strings_Split (command_line op) " "%char).
  { unfold command_of, exec_Command, args0, args1. simpl.
    pose proof (strings_Split_nonempty (command_line op) " "%char) as Hne.
    destruct (strings_Split (command_line op) " "%char); [congruence | reflexivity]. }
  rewrite H. split; [reflexivity|]. split; [apply strings_Join_Split|].
  split; [apply strings_Split_nonempty | apply strings_Split_parts].
Qed.

(** X2. A section whose name starts with [Model ] always has a second
    part when cut at its spaces: the index [1] that [instantiate] takes
    is in range, and the model name is the text between the first space
    and the next one (or the end). *)
Theorem X2_model_section_name_has_a_second_part (section : ini.IniSection) :
  strings_HasPrefix (ini.Name section) "Model " = true ->
  exists rest,
    ini.Name section = "Model " +:+ rest
    /\ strings_Split (ini.Name section) " "%char !! 1%nat
       = head (strings_Split rest " "%char)
    /\ is_Some (strings_Split (ini.Name section) " "%char !! 1%nat)
    /\ has_byte " "%char (section_modelName section) = false.
Proof.
  intros H. apply strings_HasPrefix_spec in H as [rest Hrest].
  exists rest. split; [exact Hrest|].
  assert (Hs : strings_Split (ini.Name section) " "%char
               = "Model" :: strings_Split rest " "%char).
  { rewrite Hrest. change ("Model " +:+ rest) with ("Model" +:+ String " "%char rest).
    apply strings_Split_app. reflexivity. }
  pose proof (strings_Split_nonempty rest " "%char) as Hne.
  unfold section_modelName. rewrite Hs.
  destruct (strings_Split rest " "%char) as [|h t] eqn:E; [congruence|].
  simpl. repeat split; eauto.
  apply (strings_Split_parts rest " "%char). rewrite E. left.
Qed.

Lemma X2_model_section_name_has_a_second_part_witness :
  exists rest,
    ini.Name toaster_section = "Model " +:+ rest
    /\ strings_Split (ini.Name toaster_section) " "%char !! 1%nat
       = head (strings_Split rest " "%char)
    /\ is_Some (strings_Split (ini.Name toaster_section) " "%char !! 1%nat)
    /\ has_byte " "%char (section_modelName toaster_section) = false.
Proof.
  apply (X2_model_section_name_has_a_second_part toaster_section). reflexivity.
Defined.

(** ** The RPC keys of a section *)

Lemma rpc_key_split (module name : string) :
  has_byte "/"%char module = false ->
  has_byte "/"%char name = false ->
  strings_HasPrefix (rpc_key module name) "RPC/" = true
  /\ strings_Split (rpc_key module name) "/"%char = ["RPC"; module; name].
Proof.
  intros Hm Hn. split.
  - apply strings_HasPrefix_spec. exists (module +:+ "/" +:+ name). reflexivity.
  - unfold rpc_key.
    change (strings_Join ["RPC"; module; name] "/")
      with ("RPC" +:+ String "/"%char (module +:+ String "/"%char name)).
    rewrite strings_Split_app by reflexivity.
    rewrite strings_Split_app by exact Hm.
    rewrite strings_Split_no_sep by exact Hn. reflexivity.
Qed.

Lemma well_formed_key (k p module name : string) :
  strings_HasPrefix k "RPC/" = true ->
  strings_Split k "/"%char = [p; module; name] ->
  k = rpc_key module name
  /\ has_byte "/"%char module = false /\ has_byte "/"%char name = false.
Proof.
  intros Hp Hs.
  assert (Hparts : forall part, part ∈ [p; module; name] -> has_byte "/"%char part = false).
  { rewrite <- Hs. apply strings_Split_parts. }
  apply strings_HasPrefix_spec in Hp as [r Hr].
  assert (Hp : p = "RPC").
  { rewrite Hr in Hs. change ("RPC/" +:+ r) with ("RPC" +:+ String "/"%char r) in Hs.
    rewrite strings_Split_app in Hs by reflexivity. congruence. }
  split; [|split; apply Hparts; set_solver].
  rewrite <- (strings_Join_Split k "/"%char), Hs, Hp. reflexivity.
Qed.

Lemma rpcNew_key_script (modules : gmap string (gmap string string))
    (k v module name : string) :
  rpc_script (rpcNew_key modules (k, v)) module name =
    if strings_HasPrefix k "RPC/" then
      match strings_Split k "/"%char with
      | [_; m; n] =>
          if decide (m = module /\ n = name) then Some v
          else rpc_script modules module name
      | _ => rpc_script modules module name
      end
    else rpc_script modules module name.
Proof.
  unfold rpcNew_key. simpl. destruct (strings_HasPrefix k "RPC/"); simpl; [|reflexivity].
  destruct (strings_Split k "/"%char) as [|p [|m [|n [|x rest]]]]; try reflexivity.
  unfold rpc_script. destruct (decide (m = module)) as [->|Hm].
  - rewrite lookup_insert_eq. simpl.
    destruct (decide (n = name)) as [->|Hn].
    + rewrite lookup_insert_eq. rewrite decide_True by tauto. reflexivity.
    + rewrite lookup_insert_ne by exact Hn. rewrite decide_False by tauto.
      destruct (modules !! module); reflexivity.
  - rewrite lookup_insert_ne by exact Hm. rewrite decide_False by tauto.
    reflexivity.
Qed.

Lemma rpc_fold_sound (keys : list (string * string)) (module name v : string) :
  rpc_script (foldl rpcNew_key ∅ keys) module name = Some v ->
  (rpc_key module name, v) ∈ keys.
Proof.
  induction keys as [|[k v'] l IH] using rev_ind.
  - unfold rpc_script. simpl. rewrite lookup_empty. discriminate.
  - rewrite foldl_app. simpl. rewrite rpcNew_key_script.
    destruct (strings_HasPrefix k "RPC/") eqn:Hp;
      [|intros H; apply elem_of_app; left; auto].
    destruct (strings_Split k "/"%char) as [|p [|m [|n [|x rest]]]] eqn:Hs;
      try solve [intros H; apply elem_of_app; left; auto].
    destruct (decide (m = module /\ n = name)) as [[-> ->]|Hne];
      [|intros H; apply elem_of_app; left; auto].
    intros Hv. injection Hv as ->. apply elem_of_app. right.
    destruct (well_formed_key k p module name Hp Hs) as [-> _]. left.
Qed.

Lemma rpc_fold_none (keys : list (string * string)) :
  (forall k v, (k, v) ∈ keys -> strings_HasPrefix k "RPC/" = true ->
     length (strings_Split k "/"%char) <> 3) ->
  foldl rpcNew_key ∅ keys = ∅.
Proof.
  induction keys as [|[k v] l IH] using rev_ind; intros Hall; [reflexivity|].
  rewrite foldl_app. simpl. rewrite IH.
  - unfold rpcNew_key. simpl.
    destruct (strings_HasPrefix k "RPC/") eqn:Hp; [|reflexivity]. simpl.
    assert (Hlen : length (strings_Split k "/"%char) <> 3).
    { apply (Hall k v); [apply elem_of_app; right; left | exact Hp]. }
    destruct (strings_Split k "/"%char) as [|p [|m [|n [|x rest]]]];
      try reflexivity. simpl in Hlen. congruence.
  - intros k' v' Hin. apply (Hall k' v'), elem_of_app. left. exact Hin.
Qed.

Lemma rpc_fold_defined (keys : list (string * string)) (k v p module name : string) :
  (k, v) ∈ keys ->
  strings_HasPrefix k "RPC/" = true ->
  strings_Split k "/"%char = [p; module; name] ->
  is_Some (rpc_script (foldl rpcNew_key ∅ keys) module name).
Proof.
  intros Hin Hp Hs. induction keys as [|[k' v'] l IH] using rev_ind.
  - inversion Hin.
  - rewrite foldl_app. simpl. rewrite rpcNew_key_script.
    apply elem_of_app in Hin as [Hin|Hin].
    + specialize (IH Hin).
      destruct (strings_HasPrefix k' "RPC/"); [|exact IH].
      destruct (strings_Split k' "/"%char) as [|p' [|m [|n [|x rest]]]]; try exact IH.
      destruct (decide _); [eauto | exact IH].
    + apply list_elem_of_singleton in Hin. injection Hin as <- <-.
      rewrite Hp, Hs. rewrite decide_True by tauto. eauto.
Qed.

Lemma rpc_fold_complete (keys : list (string * string)) (module name v : string) :
  NoDup (fst <$> keys) ->
  has_byte "/"%char module = false ->
  has_byte "/"%char name = false ->
  (rpc_key module name, v) ∈ keys ->
  rpc_script (foldl rpcNew_key ∅ keys) module name = Some v.
Proof.
  intros Hnd Hm Hn Hin. destruct (rpc_key_split module name Hm Hn) as [Hp Hs].
  induction keys as [|[k' v'] l IH] using rev_ind.
  - inversion Hin.
  - rewrite fmap_app in Hnd. apply NoDup_app in Hnd as (Hnd & Hdisj & _).
    rewrite foldl_app. simpl. rewrite rpcNew_key_script.
    apply elem_of_app in Hin as [Hin|Hin].
    + specialize (IH Hnd Hin).
      assert (Hk : k' <> rpc_key module name).
      { intros ->. apply (Hdisj (rpc_key module name)).
        - apply list_elem_of_fmap. exists (rpc_key module name, v). split; [reflexivity | exact Hin].
        - simpl. left. }
      destruct (strings_HasPrefix k' "RPC/") eqn:Hp'; [|exact IH].
      destruct (strings_Split k' "/"%char) as [|p' [|m [|n [|x rest]]]] eqn:Hs'; try exact IH.
      destruct (decide (m = module /\ n = name)) as [[-> ->]|Hne]; [|exact IH].
      destruct (well_formed_key k' p' module name Hp' Hs') as [-> _]. congruence.
    + apply list_elem_of_singleton in Hin. injection Hin as <- <-.
      rewrite Hp, Hs. rewrite decide_True by tauto. reflexivity.
Qed.

(** X3. The RPC record of a model holds nothing but what its section
    says: every script it keeps for a module and an operation is the
    value of the key [RPC/<module>/<operation>] of the section, and the
    record carries the component and model names it was built with. The
    record is nil exactly when no key of the section starts with [RPC/]
    and has three parts. *)
Theorem X3_rpc_record_comes_from_the_keys
    (compName modelName : string) (section : ini.IniSection) :
  let malformed :=
    forall k v, (k, v) ∈ ini.Keys section ->
      strings_HasPrefix k "RPC/" = true ->
      length (strings_Split k "/"%char) <> 3 in
  match rpcNew compName modelName section with
  | Some r =>
      rpc_compName r = compName /\ rpc_modelName r = modelName
      /\ (forall module name v,
            rpc_script (rpc_modules r) module name = Some v ->
            (rpc_key module name, v) ∈ ini.Keys section)
      /\ ~ malformed
  | None => malformed
  end.
Proof.
  intros malformed. unfold rpcNew. destruct (decide _) as [Hz|Hnz]; simpl.
  - intros k v Hin Hp Hlen.
    destruct (strings_Split k "/"%char) as [|p [|m [|n [|x rest]]]] eqn:Hs;
      try discriminate.
    destruct (rpc_fold_defined _ k v p m n Hin Hp Hs) as [s Hsome].
    apply map_size_empty_iff in Hz. rewrite Hz in Hsome.
    unfold rpc_script in Hsome. rewrite lookup_empty in Hsome. discriminate.
  - repeat split.
    + intros module name v. apply rpc_fold_sound.
    + intros Hall. apply Hnz. rewrite (rpc_fold_none _ Hall). reflexivity.
Qed.

(** X4. When the key names of a section are unique, the script of every
    key [RPC/<module>/<operation>] (module and operation without a slash)
    is kept by the RPC record under that module and operation: nothing is
    lost, in whatever order the keys appear. *)
Theorem X4_rpc_record_keeps_every_key
    (compName modelName : string) (section : ini.IniSection)
    (module name v : string) :
  NoDup (fst <$> ini.Keys section) ->
  has_byte "/"%char module = false ->
  has_byte "/"%char name = false ->
  (rpc_key module name, v) ∈ ini.Keys section ->
  exists r, rpcNew compName modelName section = Some r
    /\ rpc_script (rpc_modules r) module name = Some v.
Proof.
  intros Hnd Hm Hn Hin.
  pose proof (rpc_fold_complete _ module name v Hnd Hm Hn Hin) as Hsc.
  unfold rpcNew. destruct (decide _) as [Hz|Hnz].
  - apply map_size_empty_iff in Hz. rewrite Hz in Hsc.
    unfold rpc_script in Hsc. rewrite lookup_empty in Hsc. discriminate.
  - eexists. split; [reflexivity | exact Hsc].
Qed.

Lemma X4_rpc_record_keeps_every_key_witness :
  exists r, rpcNew "toaster" "toaster.v1" toaster_section_reordered
            = Some r
    /\ rpc_script (rpc_modules r) "toaster" "cancel-toast"
       = Some "/lib/vci-toaster --action=cancel-toast".
Proof.
  apply (X4_rpc_record_keeps_every_key "toaster" "toaster.v1"
           toaster_section_reordered "toaster" "cancel-toast"
           "/lib/vci-toaster --action=cancel-toast").
  - apply (bool_decide_unpack _). vm_compute. exact I.
  - reflexivity.
  - reflexivity.
  - apply (bool_decide_unpack _). vm_compute. exact I.
Defined.

(** ** The models of a component *)

Lemma rpcNew_names (compName modelName : string) (section : ini.IniSection) (r : rpc) :
  rpcNew compName modelName section = Some r ->
  rpc_compName r = compName /\ rpc_modelName r = modelName.
Proof.
  unfold rpcNew. destruct (decide _); [discriminate|].
  intros H. injection H as <-. split; reflexivity.
Qed.

Lemma modelNew_names (cfg : ini.File) (compName name : string)
    (section : ini.IniSection) :
  let m := modelNew cfg compName name section in
  Model_name m = name
  /\ (forall conf, Model_config m = Some conf ->
        config_compName conf = compName /\ config_modelName conf = name)
  /\ (forall st, Model_state m = Some st ->
        state_compName st = compName /\ state_modelName st = name)
  /\ (forall r, Model_rpc m = Some r ->
        rpc_compName r = compName /\ rpc_modelName r = name).
Proof.
  simpl. split; [reflexivity|]. split; [|split].
  - unfold configNew, ini.Key. intros conf H. injection H as <-. split; reflexivity.
  - unfold stateNew, ini.Key. intros st H. injection H as <-. split; reflexivity.
  - apply rpcNew_names.
Qed.

Lemma instantiate_fold_sound (cfg : ini.File) (compName : string)
    (sections : list ini.IniSection) (name : string) (m : Model) :
  foldl (instantiate_section cfg compName) ∅ sections !! name = Some m ->
  exists section, section ∈ sections
    /\ strings_HasPrefix (ini.Name section) "Model " = true
    /\ section_modelName section = name
    /\ m = modelNew cfg compName name section.
Proof.
  induction sections as [|s l IH] using rev_ind.
  - simpl. rewrite lookup_empty. discriminate.
  - rewrite foldl_app. simpl. unfold instantiate_section at 1.
    destruct (strings_HasPrefix (ini.Name s) "Model ") eqn:Hp; simpl.
    + fold (section_modelName s).
      destruct (decide (section_modelName s = name)) as [<-|Hne].
      * rewrite lookup_insert_eq. intros H. injection H as <-.
        exists s. repeat split; [apply elem_of_app; right; left | exact Hp].
      * rewrite lookup_insert_ne by exact Hne. intros H.
        destruct (IH H) as (s' & Hin & Hrest). exists s'.
        split; [apply elem_of_app; left; exact Hin | exact Hrest].
    + intros H. destruct (IH H) as (s' & Hin & Hrest). exists s'.
      split; [apply elem_of_app; left; exact Hin | exact Hrest].
Qed.

Lemma instantiate_fold_complete (cfg : ini.File) (compName : string)
    (sections : list ini.IniSection) (section : ini.IniSection) :
  section ∈ sections ->
  strings_HasPrefix (ini.Name section) "Model " = true ->
  is_Some (foldl (instantiate_section cfg compName) ∅ sections
             !! section_modelName section).
Proof.
  intros Hin Hp. induction sections as [|s l IH] using rev_ind.
  - inversion Hin.
  - rewrite foldl_app. simpl. unfold instantiate_section at 1.
    apply elem_of_app in Hin as [Hin|Hin].
    + specialize (IH Hin).
      destruct (strings_HasPrefix (ini.Name s) "Model "); simpl; [|exact IH].
      fold (section_modelName s).
      destruct (decide (section_modelName s = section_modelName section)) as [->|Hne].
      * rewrite lookup_insert_eq. eauto.
      * rewrite lookup_insert_ne by exact Hne. exact IH.
    + apply list_elem_of_singleton in Hin. subst s. rewrite Hp. simpl.
      fold (section_modelName section). rewrite lookup_insert_eq. eauto.
Qed.

(** X5. [New] fails with the error of the ini reader when the file does
    not load. When it loads, every model of the component is stored
    under its own name, was built from a section of the file whose name
    starts with [Model ], and its Config, State and RPC records carry
    the name of the component and of the model; every such section of
    the file has a model under the name read off its header. *)
Theorem X5_models_come_from_model_sections (o : Outside) (path : string) :
  match ini_Load o path with
  | inl err => New o [From path] = inl err
  | inr cfg =>
      exists c, New o [From path] = inr c
        /\ instanceFile c = path
        /\ (forall name m, Component_models c !! name = Some m ->
              Model_name m = name
              /\ (forall conf, Model_config m = Some conf ->
                    config_compName conf = Component_name c
                    /\ config_modelName conf = name)
              /\ (forall st, Model_state m = Some st ->
                    state_compName st = Component_name c
                    /\ state_modelName st = name)
              /\ (forall r, Model_rpc m = Some r ->
                    rpc_compName r = Component_name c
                    /\ rpc_modelName r = name)
              /\ exists section, section ∈ cfg
                   /\ strings_HasPrefix (ini.Name section) "Model " = true
                   /\ section_modelName section = name)
        /\ (forall section, section ∈ cfg ->
              strings_HasPrefix (ini.Name section) "Model " = true ->
              is_Some (Component_models c !! section_modelName section))
  end.
Proof.
  destruct (ini_Load o path) as [err|cfg] eqn:Hload.
  - unfold New, instantiate. simpl. rewrite Hload. reflexivity.
  - destruct (New_From o path cfg Hload) as (c & HN & Hf & _ & _ & _ & Hm).
    exists c. split; [exact HN|]. split; [exact Hf|]. split.
    + intros name m Hlook. rewrite Hm in Hlook.
      destruct (instantiate_fold_sound _ _ _ _ _ Hlook) as (s & Hin & Hp & Hname & ->).
      pose proof (modelNew_names cfg (Component_name c) name s) as (H1 & H2 & H3 & H4).
      split; [exact H1|]. split; [exact H2|]. split; [exact H3|].
      split; [exact H4|]. exists s. split; [exact Hin|]. split; [exact Hp|].
      exact Hname.
    + intros section Hin Hp. rewrite Hm.
      apply instantiate_fold_complete; assumption.
Qed.

(** ** Scanning the instance directory *)

(** X6. The scan of a directory listing skips subdirectories and files
    that do not load without any effect: it gives the snapshot and the
    world that the scan of the listing without those entries gives. *)
Theorem X6_scan_skips_what_does_not_load
    (o : Outside) (instanceDir : string) (dir : list (string * bool))
    (cs : gmap string component) (w : World) :
  readAllComponents_loop o instanceDir cs dir w
  = readAllComponents_loop o instanceDir cs
      (List.filter (loads o instanceDir) dir) w.
Proof.
  revert cs w. induction dir as [|fi rest IH]; intros cs w; [reflexivity|].
  cbn [List.filter readAllComponents_loop].
  destruct (loads o instanceDir fi) eqn:Hl.
  - cbn [readAllComponents_loop]. unfold bind.
    destruct (readAllComponents_entry o instanceDir cs fi w) as [cs' w'].
    apply IH.
  - assert (Hskip : readAllComponents_entry o instanceDir cs fi w = (cs, w)).
    { unfold loads in Hl. unfold readAllComponents_entry.
      destruct (snd fi); [reflexivity|]. simpl in Hl.
      destruct (New o _); [reflexivity | discriminate]. }
    unfold bind. rewrite Hskip. apply IH.
Qed.

Lemma readAllComponents_entry_scanned (o : Outside) (instanceDir : string)
    (dir : list (string * bool)) (w0 : World)
    (cs : gmap string component) (fi : string * bool) (w : World) :
  fi ∈ dir ->
  fresh w0 <= fresh w ->
  scanned o instanceDir dir w0 cs w ->
  let r := readAllComponents_entry o instanceDir cs fi w in
  fresh w0 <= fresh (snd r) /\ scanned o instanceDir dir w0 (fst r) (snd r).
Proof.
  intros Hfi Hle Hsc. unfold readAllComponents_entry.
  destruct (snd fi) eqn:Hdir; [split; assumption|].
  destruct (New o [From (instanceDir +:+ "/" +:+ fst fi)]) as [err|comp] eqn:HN;
    [split; assumption|].
  unfold createVCIComponent, newComponent, new_id, agent_New, bind, ret. simpl.
  split; [lia|]. intros name c Hlook.
  destruct (decide (Component_name comp = name)) as [<-|Hne].
  - rewrite lookup_insert_eq in Hlook. injection Hlook as <-. simpl.
    split; [reflexivity|]. split; [reflexivity|]. split; [lia|]. split; [lia|].
    split; [apply lookup_insert_eq|]. split.
    { exists (fst fi). split; [|exact HN].
      destruct fi as [file d]. simpl in *. subst d. exact Hfi. }
    intros name' c' Hlook' Hst.
    destruct (decide (Component_name comp = name')) as [|Hne']; [congruence|].
    rewrite lookup_insert_ne in Hlook' by exact Hne'.
    destruct (Hsc name' c' Hlook') as (_ & _ & _ & Hb & _).
    simpl in Hst. exfalso. lia.
  - rewrite lookup_insert_ne in Hlook by exact Hne.
    destruct (Hsc name c Hlook) as (H1 & H2 & H3 & H4 & H5 & H6 & H7).
    simpl. split; [exact H1|]. split; [exact H2|]. split; [lia|]. split; [lia|].
    split; [rewrite lookup_insert_ne by lia; exact H5|]. split; [exact H6|].
    intros name' c' Hlook' Hst.
    destruct (decide (Component_name comp = name')) as [<-|Hne'].
    + rewrite lookup_insert_eq in Hlook'. injection Hlook' as <-.
      simpl in Hst. exfalso. lia.
    + rewrite lookup_insert_ne in Hlook' by exact Hne'. eapply H7; eassumption.
Qed.

Lemma readAllComponents_loop_scanned (o : Outside) (instanceDir : string)
    (dir : list (string * bool)) (w0 : World) (rest : list (string * bool))
    (cs : gmap string component) (w : World) :
  (forall fi, fi ∈ rest -> fi ∈ dir) ->
  fresh w0 <= fresh w ->
  scanned o instanceDir dir w0 cs w ->
  let r := readAllComponents_loop o instanceDir cs rest w in
  scanned o instanceDir dir w0 (fst r) (snd r).
Proof.
  revert cs w. induction rest as [|fi rest IH]; intros cs w Hin Hle Hsc;
    [exact Hsc|].
  simpl. unfold bind.
  assert (Hfi : fi ∈ dir) by (apply Hin; left).
  pose proof (readAllComponents_entry_scanned o instanceDir dir w0 cs fi w
                Hfi Hle Hsc) as [Hle' Hsc'].
  destruct (readAllComponents_entry o instanceDir cs fi w) as [cs' w'].
  apply IH; [|assumption|assumption].
  intros fi' Hfi'. apply Hin. right. exact Hfi'.
Qed.

(** X7. When the directory cannot be read the scan returns the empty
    snapshot and changes nothing. Otherwise, in the snapshot that the
    scan returns, every component is stored under the name of its
    definition, has a bus component of that name, was parsed from an
    entry of the directory listing that is not a directory, and has a
    bus identity and an agent allocated by this scan; its agent holds
    [false] (nothing is started by a scan), and no two components of the
    snapshot share an agent. *)
Theorem X7_scanned_components_are_fresh_and_stopped
    (o : Outside) (instanceDir : string) (w : World) :
  let r := readAllComponents o instanceDir w in
  match ioutil_ReadDir o instanceDir with
  | None => r = (∅, w)
  | Some dir => scanned o instanceDir dir w (fst r) (snd r)
  end.
Proof.
  unfold readAllComponents. destruct (ioutil_ReadDir o instanceDir) as [dir|].
  - apply readAllComponents_loop_scanned; [auto | lia |].
    intros name c H. rewrite lookup_empty in H. discriminate.
  - reflexivity.
Qed.

(** ** Reconciliation *)

Lemma elem_of_sync_removed (old new : gmap string component)
    (name : string) (c : component) :
  (name, c) ∈ sync_removed old new <-> old !! name = Some c /\ new !! name = None.
Proof.
  unfold sync_removed. rewrite list_elem_of_filter, elem_of_map_to_list.
  simpl. tauto.
Qed.

Lemma elem_of_sync_changed (old new : gmap string component)
    (name : string) (c : component) :
  (name, c) ∈ sync_changed old new <->
  old !! name = Some c
  /\ exists nc, new !! name = Some nc
       /\ Component_Equal (meta nc) (meta c) = false.
Proof.
  unfold sync_changed. rewrite list_elem_of_omap. split.
  - intros ([n nc] & Hin & Hf). apply elem_of_map_to_list in Hin.
    unfold sync_changed_entry in Hf. simpl in Hf.
    destruct (old !! n) as [val|] eqn:Ho; [|discriminate].
    destruct (Component_Equal (meta nc) (meta val)) eqn:He; [discriminate|].
    injection Hf as <- <-. split; [exact Ho|]. exists nc. split; assumption.
  - intros (Ho & nc & Hn & He). exists (name, nc).
    split; [apply elem_of_map_to_list; exact Hn|].
    unfold sync_changed_entry. simpl. rewrite Ho, He. reflexivity.
Qed.

Lemma omap_fst_NoDup {A B : Type} (f : string * A -> option (string * B))
    (l : list (string * A)) :
  (forall x y, f x = Some y -> fst y = fst x) ->
  NoDup (fst <$> l) -> NoDup (fst <$> omap f l).
Proof.
  intros Hf. induction l as [|x l IH]; simpl; intros Hnd; [constructor|].
  apply NoDup_cons in Hnd as [Hx Hnd].
  destruct (f x) as [y|] eqn:Hfx; simpl; [|auto].
  apply NoDup_cons. split; [|auto].
  rewrite (Hf x y Hfx). intros Hin. apply Hx.
  apply list_elem_of_fmap in Hin as ([n b] & -> & Hin).
  apply list_elem_of_omap in Hin as (x' & Hin' & Hfx').
  apply list_elem_of_fmap. exists x'. split; [|exact Hin'].
  apply (Hf x' _ Hfx').
Qed.

(** X8. The stop actions of a reconciliation are exactly the components
    of the old snapshot whose name is gone from the new snapshot or whose
    definition there is not equal to theirs; it is always the old
    component that is stopped, and no name gets more than one action. *)
Theorem X8_stop_actions (old new : gmap string component) :
  (forall name c,
     (name, c) ∈ sync_actions old new <->
     old !! name = Some c
     /\ (new !! name = None
         \/ exists nc, new !! name = Some nc
              /\ Component_Equal (meta nc) (meta c) = false))
  /\ NoDup (fst <$> sync_actions old new).
Proof.
  split.
  - intros name c. unfold sync_actions.
    rewrite elem_of_app, elem_of_sync_removed, elem_of_sync_changed. tauto.
  - unfold sync_actions. rewrite fmap_app. apply NoDup_app. split; [|split].
    + unfold sync_removed.
      eapply sublist_NoDup;
        [apply (NoDup_fst_map_to_list old) | apply fmap_sublist, sublist_filter].
    + intros name H1 H2.
      apply list_elem_of_fmap in H1 as ([n c] & -> & H1).
      apply list_elem_of_fmap in H2 as ([n' c'] & Hn & H2). simpl in Hn. subst n'.
      apply elem_of_sync_removed in H1 as [_ H1].
      apply elem_of_sync_changed in H2 as (_ & nc & H2 & _). congruence.
    + unfold sync_changed. apply omap_fst_NoDup.
      * intros [n nc] [n' c']. unfold sync_changed_entry. simpl.
        destruct (old !! n); [|discriminate].
        destruct (Component_Equal _ _); [discriminate|].
        intros H. injection H as <- <-. reflexivity.
      * apply NoDup_fst_map_to_list.
Qed.

Lemma component_Stop_only_stops (o : Outside) (c : component) (w : World) :
  exists tr, trace (snd (component_Stop o c w)) = trace w ++ tr
    /\ Forall stop_event tr.
Proof.
  destruct (default false (agents w !! started c)) eqn:Hr.
  - rewrite (component_Stop_running o c w Hr). simpl.
    rewrite Component_Stop_world.
    destruct (decide (Component_stop (meta c) = EmptyString)).
    + exists [EvVciStop (vci_id (vci c))]. split; [reflexivity|].
      repeat constructor.
    + exists [EvExec (command_of (OpStop (meta c))); EvVciStop (vci_id (vci c))].
      split; [simpl; rewrite <- app_assoc; reflexivity|].
      repeat constructor. exists (meta c). reflexivity.
  - exists []. split; [|constructor]. rewrite app_nil_r.
    unfold component_Stop, agent_Send, agent_Deref, agent_store, bind, ret.
    rewrite Hr. reflexivity.
Qed.

Lemma run_actions_only_stops (o : Outside)
    (actions : list (string * component)) (w : World) :
  exists tr, trace (snd (run_actions o actions w)) = trace w ++ tr
    /\ Forall stop_event tr.
Proof.
  revert w. induction actions as [|act rest IH]; intros w.
  - exists []. split; [simpl; rewrite app_nil_r; reflexivity | constructor].
  - simpl. unfold bind.
    destruct (component_Stop_only_stops o (snd act) w) as (tr1 & H1 & F1).
    destruct (component_Stop o (snd act) w) as [e w1]. simpl in H1.
    destruct (IH w1) as (tr2 & H2 & F2).
    exists (tr1 ++ tr2). split.
    + rewrite H2, H1, app_assoc. reflexivity.
    + apply Forall_app. split; assumption.
Qed.

(** X9. A reconciliation pass never starts anything: what it adds to the
    trace are stop scripts and bus un-registrations only; no start script
    runs and no component is registered on the bus. *)
Theorem X9_reconciliation_only_stops
    (o : Outside) (instanceDir : string)
    (old : gmap string component) (w : World) :
  exists tr,
    trace (snd (reconcile o instanceDir old w)) = trace w ++ tr
    /\ Forall stop_event tr
    /\ invocations "Start" tr = 0
    /\ (forall id, EvVciRun id ∉ tr).
Proof.
  unfold reconcile, swapper, syncComponents, bind, ret.
  pose proof (readAllComponents_frame o instanceDir w) as (Ht & _ & _).
  destruct (readAllComponents o instanceDir w) as [new w1]. simpl in Ht.
  destruct (run_actions_only_stops o
              (sync_actions old (map_imap (swapper_entry old) new)) w1)
    as (tr & Htr & Hall).
  destruct (run_actions o _ w1) as [u w2]. simpl in *.
  exists tr. split; [congruence|]. split; [exact Hall|]. split.
  - clear Htr. induction Hall as [|e tr He Hall IH]; [reflexivity|].
    change (e :: tr) with ([e] ++ tr). rewrite invocations_app, IH, invocations_one.
    destruct e as [cmd|id|id]; [|reflexivity|reflexivity].
    destruct He as [c ->]. unfold runs_script.
    rewrite bool_decide_eq_false_2; [reflexivity|].
    intros Hin.
    repeat (apply elem_of_cons in Hin as [Hin|Hin]; [cbv in Hin; discriminate|]).
    inversion Hin.
  - intros id Hin. rewrite Forall_forall in Hall. exact (Hall _ Hin).
Qed.

(** X10. The swapper keeps the names of the scan: the new snapshot has
    an entry exactly for the names the scan found, and each entry is the
    old component of that name when there is one with an equal
    definition, and the freshly built component otherwise. *)
Theorem X10_swapper_entries
    (o : Outside) (instanceDir : string)
    (old : gmap string component) (w : World) (name : string) :
  let scan := fst (readAllComponents o instanceDir w) in
  let new := fst (swapper o instanceDir old w) in
  snd (swapper o instanceDir old w) = snd (readAllComponents o instanceDir w)
  /\ match scan !! name with
     | None => new !! name = None
     | Some comp =>
         match old !! name with
         | Some oldComp =>
             if Component_Equal (meta comp) (meta oldComp)
             then new !! name = Some oldComp
             else new !! name = Some comp
         | None => new !! name = Some comp
         end
     end.
Proof.
  unfold swapper, bind, ret.
  destruct (readAllComponents o instanceDir w) as [scan w1]. simpl.
  split; [reflexivity|]. rewrite map_lookup_imap.
  destruct (scan !! name) as [comp|]; simpl; [|reflexivity].
  unfold swapper_entry. destruct (old !! name) as [oldComp|]; [|reflexivity].
  simpl. destruct (Component_Equal _ _); reflexivity.
Qed.

(** ** More on the runtime wrapper *)

(** X11. On a running component, [Stop] returns the result of the bus
    un-registration, whatever the stop script did: when the bus refuses,
    the error is returned and the component stays running; when the bus
    accepts, the component is stopped. *)
Theorem X11_stop_returns_unregistration_result
    (o : Outside) (c : component) (w : World) :
  agents w !! started c = Some true ->
  let err := vci_Stop o (trace (snd (Component_Stop o (meta c) w)))
               (vci_id (vci c)) in
  fst (component_Stop o c w) = err
  /\ fst (component_Running c (snd (component_Stop o c w))) = negb (is_nil err)
  /\ trace (snd (component_Stop o c w))
     = trace w
       ++ (if decide (Component_stop (meta c) = EmptyString) then []
           else [EvExec (command_of (OpStop (meta c)))])
       ++ [EvVciStop (vci_id (vci c))].
Proof.
  intros Hr err.
  assert (Hd : default false (agents w !! started c) = true) by (rewrite Hr; reflexivity).
  pose proof (component_Stop_running o c w Hd) as Hs. simpl in Hs. fold err in Hs.
  rewrite Hs. simpl. split; [reflexivity|]. split.
  - unfold component_Running, agent_Deref. simpl. rewrite lookup_insert_eq. reflexivity.
  - rewrite Component_Stop_world. destruct (decide _); simpl; [reflexivity|].
    rewrite <- app_assoc. reflexivity.
Qed.

Lemma X11_stop_returns_unregistration_result_witness :
  fst (component_Stop outside_bus_fails toaster toaster_running)
    = Some (ErrLib "bus: not connected")
  /\ fst (component_Running toaster
            (snd (component_Stop outside_bus_fails toaster toaster_running)))
     = negb (is_nil (Some (ErrLib "bus: not connected")))
  /\ trace (snd (component_Stop outside_bus_fails toaster toaster_running))
     = trace toaster_running
       ++ (if decide (Component_stop (meta toaster) = EmptyString) then []
           else [EvExec (command_of (OpStop (meta toaster)))])
       ++ [EvVciStop (vci_id (vci toaster))].
Proof.
  apply (X11_stop_returns_unregistration_result outside_bus_fails toaster
           toaster_running).
  reflexivity.
Defined.

(** X12. [Run] and [Stop] of a component touch no agent but its own,
    allocate nothing, and only add to the trace. *)
Theorem X12_run_and_stop_leave_other_agents_alone
    (o : Outside) (c : component) (w : World) :
  let r := snd (component_Run o c w) in
  let s := snd (component_Stop o c w) in
  delete (started c) (agents r) = delete (started c) (agents w)
  /\ delete (started c) (agents s) = delete (started c) (agents w)
  /\ fresh r = fresh w /\ fresh s = fresh w
  /\ (exists tr, trace r = trace w ++ tr)
  /\ (exists tr, trace s = trace w ++ tr).
Proof.
  assert (HR : let r := snd (component_Run o c w) in
               delete (started c) (agents r) = delete (started c) (agents w)
               /\ fresh r = fresh w /\ exists tr, trace r = trace w ++ tr).
  { destruct (default false (agents w !! started c)) eqn:Hr.
    - assert (Hs : agents w !! started c = Some true).
      { destruct (agents w !! started c) as [[]|]; simpl in Hr; congruence. }
      rewrite (component_Run_running o c w Hs). simpl.
      repeat split. exists []. rewrite app_nil_r. reflexivity.
    - rewrite (component_Run_stopped o c w Hr). simpl.
      split; [apply delete_insert_eq|]. split; [reflexivity|].
      rewrite Component_Start_world. destruct (decide _); simpl; eauto.
      rewrite <- app_assoc. eauto. }
  assert (HS : let s := snd (component_Stop o c w) in
               delete (started c) (agents s) = delete (started c) (agents w)
               /\ fresh s = fresh w /\ exists tr, trace s = trace w ++ tr).
  { destruct (default false (agents w !! started c)) eqn:Hr.
    - rewrite (component_Stop_running o c w Hr). simpl.
      split; [apply delete_insert_eq|]. split; [reflexivity|].
      rewrite Component_Stop_world. destruct (decide _); simpl; eauto.
      rewrite <- app_assoc. eauto.
    - unfold component_Stop, agent_Send, agent_Deref, agent_store, bind, ret.
      rewrite Hr. simpl. split; [apply delete_insert_eq|]. split; [reflexivity|].
      exists []. rewrite app_nil_r. reflexivity. }
  simpl in *. tauto.
Qed.

(** X13. An Activate followed by a Deactivate of a component that was
    not running, both answered with success: the component is running
    in between and not running after, and what happened is the start
    script (if one is configured), the bus registration, the stop script
    (if one is configured) and the bus un-registration, in this order,
    each once. *)
Theorem X13_activate_then_deactivate
    (o : Outside) (cs : gmap string component) (name : string)
    (c : component) (w : World) :
  cs !! name = Some c ->
  default false (agents w !! started c) = false ->
  let a := Activate o cs name w in
  let d := Deactivate o cs name (snd a) in
  fst a = (Some TreeNew, None) ->
  fst d = (Some TreeNew, None) ->
  fst (component_Running c w) = false
  /\ fst (component_Running c (snd a)) = true
  /\ fst (component_Running c (snd d)) = false
  /\ trace (snd d)
     = trace w
       ++ (if decide (Component_start (meta c) = EmptyString) then []
           else [EvExec (command_of (OpStart (meta c)))])
       ++ [EvVciRun (vci_id (vci c))]
       ++ (if decide (Component_stop (meta c) = EmptyString) then []
           else [EvExec (command_of (OpStop (meta c)))])
       ++ [EvVciStop (vci_id (vci c))].
Proof.
  intros Hcs Hr a d Ha Hd.
  assert (HA : a = (match fst (component_Run o c w) with
                    | Some e => (None, Some e)
                    | None => (Some TreeNew, None)
                    end, snd (component_Run o c w))).
  { subst a. unfold Activate, bind, ret. rewrite Hcs.
    destruct (component_Run o c w) as [[e|] w1]; reflexivity. }
  pose proof (component_Run_stopped o c w Hr) as Hrun. simpl in Hrun.
  set (err := vci_Run o (trace (snd (Component_Start o (meta c) w))) (vci_id (vci c))) in *.
  rewrite Hrun in HA. simpl in HA.
  assert (He : err = None).
  { rewrite HA in Ha. simpl in Ha. destruct err; [discriminate | reflexivity]. }
  rewrite He in HA. simpl in HA.
  assert (Hflag : agents (snd a) !! started c = Some true).
  { rewrite HA. simpl. apply lookup_insert_eq. }
  assert (HD : d = (match fst (component_Stop o c (snd a)) with
                    | Some e => (None, Some e)
                    | None => (Some TreeNew, None)
                    end, snd (component_Stop o c (snd a)))).
  { subst d. unfold Deactivate, bind, ret. rewrite Hcs.
    destruct (component_Stop o c (snd a)) as [[e|] w2]; reflexivity. }
  assert (Hdr : default false (agents (snd a) !! started c) = true)
    by (rewrite Hflag; reflexivity).
  pose proof (component_Stop_running o c (snd a) Hdr) as Hstop. simpl in Hstop.
  set (err' := vci_Stop o (trace (snd (Component_Stop o (meta c) (snd a)))) (vci_id (vci c))) in *.
  rewrite Hstop in HD. simpl in HD.
  assert (He' : err' = None).
  { rewrite HD in Hd. simpl in Hd. destruct err'; [discriminate | reflexivity]. }
  rewrite He' in HD. simpl in HD.
  split; [exact Hr|]. split.
  - unfold component_Running, agent_Deref. simpl. rewrite Hflag. reflexivity.
  - rewrite HD. simpl. split.
    + unfold component_Running, agent_Deref. simpl.
      rewrite lookup_insert_eq. reflexivity.
    + rewrite Component_Stop_world, HA. simpl. rewrite Component_Start_world.
      destruct (decide (Component_start (meta c) = EmptyString));
        destruct (decide (Component_stop (meta c) = EmptyString)); simpl;
        rewrite <- ?app_assoc; reflexivity.
Qed.

Lemma X13_activate_then_deactivate_witness :
  let cs : gmap string component := {[ "toaster" := toaster ]} in
  let a := Activate outside_ok cs "toaster" toaster_stopped in
  let d := Deactivate outside_ok cs "toaster" (snd a) in
  fst (component_Running toaster toaster_stopped) = false
  /\ fst (component_Running toaster (snd a)) = true
  /\ fst (component_Running toaster (snd d)) = false
  /\ trace (snd d)
     = trace toaster_stopped
       ++ (if decide (Component_start (meta toaster) = EmptyString) then []
           else [EvExec (command_of (OpStart (meta toaster)))])
       ++ [EvVciRun (vci_id (vci toaster))]
       ++ (if decide (Component_stop (meta toaster) = EmptyString) then []
           else [EvExec (command_of (OpStop (meta toaster)))])
       ++ [EvVciStop (vci_id (vci toaster))].
Proof.
  apply (X13_activate_then_deactivate outside_ok {[ "toaster" := toaster ]}
           "toaster" toaster toaster_stopped); reflexivity.
Defined.

(** X14. When the script of an operation exits zero, Config Get, State
    Get and the RPC closure return its standard output as it is, and Set,
    Check, Start and Stop return success and no payload; nothing written to
    the standard error changes that. *)
Theorem X14_zero_exit (o : Outside) (op : Operation) (w : World) :
  spawns op = true ->
  Output_err (cmd_Output o (trace w) (command_of op)) = false ->
  let out := cmd_Output o (trace w) (command_of op) in
  let r := fst (perform o op w) in
  returns_error r = false
  /\ returned_payload r =
       (if is_get op || is_rpc op then Some (Output_buf out) else None).
Proof.
  unfold spawns. intros Hs Herr.
  destruct op; simpl in Hs;
    try (apply negb_true_iff, bool_decide_eq_false in Hs);
    step_ops;
    try (destruct (decide _) as [He|_]; [by destruct Hs|]);
    cbv beta iota zeta delta
      [command_of command_line op_compName op_modelName op_label op_stdin]
      in Herr;
    rewrite Herr; split; reflexivity.
Qed.

Lemma X14_zero_exit_witness :
  let op := OpConfigGet toaster_config in
  let out := cmd_Output outside_ok (trace World0) (command_of op) in
  let r := fst (perform outside_ok op World0) in
  returns_error r = false
  /\ returned_payload r =
       (if is_get op || is_rpc op then Some (Output_buf out) else None).
Proof.
  apply (X14_zero_exit outside_ok (OpConfigGet toaster_config) World0);
    reflexivity.
Defined.

(** ** More on structural equality *)

Lemma rpc_covered_dom (a b : gmap string (gmap string string)) :
  rpc_covered a b = true -> (dom a : gset string) ⊆ dom b.
Proof.
  rewrite rpc_covered_spec. intros H module Hin.
  apply elem_of_dom in Hin as [names Hn].
  destruct (H module names Hn) as (oNames & Hb & _).
  apply elem_of_dom. eauto.
Qed.

(** X15. [rpc.Equal] holds exactly when the two records have the same
    modules and read the same script at every module and operation, a
    missing operation reading as the empty string: an operation with an
    empty script on one side and no such operation on the other does not
    make two records different. *)
Theorem X15_rpc_equality (r or : rpc) :
  rpc_Equal r or = true <->
  (dom (rpc_modules r) : gset string) = dom (rpc_modules or)
  /\ forall module name,
       script_at (rpc_modules r) module name
       = script_at (rpc_modules or) module name.
Proof.
  split.
  - intros H. split.
    + destruct (rpc_Equal_true r or H) as [H1 H2].
      apply rpc_covered_dom in H1, H2. set_solver.
    + intros module name. apply rpc_Equal_script_at. exact H.
  - intros [Hdom Hs]. unfold rpc_Equal.
    rewrite bool_decide_eq_true_2
      by (rewrite <- !size_dom, Hdom; reflexivity).
    simpl. apply andb_true_iff.
    assert (Hcov : forall a b : gmap string (gmap string string),
               (dom a : gset string) = dom b ->
               (forall module name, script_at a module name = script_at b module name) ->
               rpc_covered a b = true).
    { intros a b Hd Hab. apply rpc_covered_spec. intros module names Ha.
      assert (Hin : module ∈ (dom b : gset string)).
      { rewrite <- Hd. apply elem_of_dom. eauto. }
      apply elem_of_dom in Hin as [oNames Hb]. exists oNames.
      split; [exact Hb|]. intros name script Hn.
      specialize (Hab module name). unfold script_at in Hab.
      rewrite Ha, Hb in Hab. simpl in Hab. rewrite <- Hab.
      unfold names_at. rewrite Hn. reflexivity. }
    split; apply Hcov; auto.
Qed.

Lemma bool_decide_eq_sym {A : Type} `{EqDecision A} (x y : A) :
  bool_decide (x = y) = bool_decide (y = x).
Proof. apply bool_decide_ext. split; congruence. Qed.

Lemma rpc_Equal_sym (r or : rpc) : rpc_Equal r or = rpc_Equal or r.
Proof.
  unfold rpc_Equal. rewrite (bool_decide_eq_sym (size (rpc_modules or))).
  destruct (negb _); [reflexivity | apply andb_comm].
Qed.

Lemma config_Equal_sym (c oc : config) : config_Equal c oc = config_Equal oc c.
Proof.
  unfold config_Equal.
  rewrite (bool_decide_eq_sym (config_get c)), (bool_decide_eq_sym (config_set c)),
    (bool_decide_eq_sym (config_check c)). reflexivity.
Qed.

Lemma state_Equal_sym (c os : state) : state_Equal c os = state_Equal os c.
Proof. unfold state_Equal. apply bool_decide_eq_sym. Qed.

Lemma Model_Equal_sym (c om : Model) : Model_Equal c om = Model_Equal om c.
Proof.
  unfold Model_Equal. rewrite (bool_decide_eq_sym (Model_name c)).
  f_equal; [f_equal; [f_equal|]|].
  - destruct (Model_config c), (Model_config om); simpl; auto using config_Equal_sym.
  - destruct (Model_state c), (Model_state om); simpl; auto using state_Equal_sym.
  - destruct (Model_rpc c), (Model_rpc om); simpl; auto using rpc_Equal_sym.
Qed.

(** X16. [Component.Equal] and [Model.Equal] are symmetric and
    reflexive: it does not matter which of the old and the new
    definition is the receiver of the comparison, and a definition is
    always equal to itself. *)
Theorem X16_equality_is_symmetric_and_reflexive (c oc : Component) (m om : Model) :
  Component_Equal c oc = Component_Equal oc c
  /\ Model_Equal m om = Model_Equal om m
  /\ Component_Equal c c = true
  /\ Model_Equal m m = true.
Proof.
  split; [|split; [apply Model_Equal_sym|split]].
  - unfold Component_Equal, equalModels.
    rewrite (bool_decide_eq_sym (Component_name c)),
      (bool_decide_eq_sym (Component_start c)),
      (bool_decide_eq_sym (Component_stop c)),
      (bool_decide_eq_sym (size (Component_models c))).
    f_equal. destruct (negb _); [reflexivity | apply andb_comm].
  - apply Component_Equal_refl.
  - apply Model_Equal_same_commands, same_commands_refl.
Qed.

(** ** Payloads and accessors *)

(** X17. An [encodedString] passes payloads through: what was
    unmarshalled (as JSON or as RFC 7951) is marshalled back byte for
    byte, without error in either direction, and a nil [encodedString]
    is marshalled as [null]. *)
Theorem X17_encodedString_round_trip (data : list byte) :
  encodedString_MarshalJSON (fst (encodedString_UnmarshalJSON (Some data)))
    = (data, None)
  /\ encodedString_MarshalRFC7951 (fst (encodedString_UnmarshalRFC7951 (Some data)))
    = (data, None)
  /\ encodedString_MarshalJSON (fst (encodedString_UnmarshalRFC7951 (Some data)))
    = (data, None)
  /\ snd (encodedString_UnmarshalJSON (Some data)) = None
  /\ snd (encodedString_UnmarshalRFC7951 (Some data)) = None
  /\ fst (encodedString_MarshalJSON None) = null_bytes
  /\ fst (encodedString_MarshalRFC7951 None) = null_bytes.
Proof. repeat split. Qed.

(** X18. The handlers that [Model.RPC] hands to the bus are one closure
    of [genRpc] for every script of the RPC record, under the same module
    and operation, and nothing else; the flag it returns tells whether
    the model has an RPC record, as the flags of [Model.Config] and
    [Model.State] tell for theirs. *)
Theorem X18_one_handler_per_script (o : Outside) (m : Model) :
  snd (Model_Config m) = bool_decide (is_Some (Model_config m))
  /\ snd (Model_State m) = bool_decide (is_Some (Model_state m))
  /\ match Model_rpc m with
     | None => Model_RPC o m = (None, false)
     | Some r =>
         exists handlers,
           Model_RPC o m = (Some handlers, true)
           /\ forall module name,
                (handlers !! module ≫= (fun funcs => funcs !! name))
                = genRpc o r module name <$> rpc_script (rpc_modules r) module name
     end.
Proof.
  split; [|split].
  - unfold Model_Config. simpl. destruct (Model_config m); reflexivity.
  - unfold Model_State. simpl. destruct (Model_state m); reflexivity.
  - unfold Model_RPC. destruct (Model_rpc m) as [r|]; [|reflexivity].
    eexists. split; [reflexivity|]. intros module name.
    unfold rpc_script. rewrite map_lookup_imap.
    destruct (rpc_modules r !! module) as [rpcs|]; simpl; [|reflexivity].
    rewrite map_lookup_imap. destruct (rpcs !! name); reflexivity.
Qed.

Lemma models_covered_spec (a b : gmap string Model) :
  models_covered a b = true <->
  forall k v, a !! k = Some v ->
    exists v', b !! k = Some v' /\ Model_Equal v v' = true.
Proof.
  unfold models_covered. rewrite forallb_map_to_list. split.
  - intros H k v Ha. specialize (H k v Ha). simpl in H.
    destruct (b !! k) as [v'|]; [eauto | discriminate].
  - intros H k v Ha. destruct (H k v Ha) as (v' & Hb & He). simpl.
    rewrite Hb. exact He.
Qed.

(** X19. [Component.Equal] holds exactly when the two definitions have
    the same name, start command and stop command, the same model names,
    and equal models under every name. *)
Theorem X19_component_equality (c oc : Component) :
  Component_Equal c oc = true <->
  Component_name c = Component_name oc
  /\ Component_start c = Component_start oc
  /\ Component_stop c = Component_stop oc
  /\ (dom (Component_models c) : gset string) = dom (Component_models oc)
  /\ forall k m om,
       Component_models c !! k = Some m ->
       Component_models oc !! k = Some om ->
       Model_Equal m om = true.
Proof.
  unfold Component_Equal, equalModels.
  rewrite !andb_true_iff, !bool_decide_eq_true. split.
  - intros [[[Hn Hs] Ht] Hm].
    destruct (negb _) eqn:Hsz; [discriminate|].
    apply andb_true_iff in Hm as [H1 H2].
    rewrite models_covered_spec in H1, H2.
    repeat (split; [assumption|]). split.
    + apply set_eq. intros k. rewrite !elem_of_dom. split.
      * intros [v Hv]. destruct (H1 k v Hv) as (v' & Hv' & _). eauto.
      * intros [v Hv]. destruct (H2 k v Hv) as (v' & Hv' & _). eauto.
    + intros k m om Hm Hom. destruct (H1 k m Hm) as (v' & Hv' & He). congruence.
  - intros (Hn & Hs & Ht & Hd & Hm). split; [tauto|].
    rewrite bool_decide_eq_true_2 by (rewrite <- !size_dom, Hd; reflexivity).
    simpl. apply andb_true_iff. split; apply models_covered_spec; intros k v Hv.
    + assert (Hin : k ∈ (dom (Component_models oc) : gset string)).
      { rewrite <- Hd. apply elem_of_dom. eauto. }
      apply elem_of_dom in Hin as [v' Hv']. exists v'. split; [exact Hv'|]. eauto.
    + assert (Hin : k ∈ (dom (Component_models c) : gset string)).
      { rewrite Hd. apply elem_of_dom. eauto. }
      apply elem_of_dom in Hin as [v' Hv']. exists v'. split; [exact Hv'|].
      rewrite Model_Equal_sym. eauto.
Qed.

(** X20. When a scan finds, under a known name, a definition that is not
    equal to the old one, the new snapshot holds the freshly built
    component under that name and the old component gets a stop action;
    when a scan does not find a known name any more, the new snapshot has
    no entry for it and the old component gets a stop action. *)
Theorem X20_changed_and_removed_definitions
    (o : Outside) (instanceDir : string)
    (old : gmap string component) (w : World)
    (name : string) (oc : component) :
  old !! name = Some oc ->
  let scan := fst (readAllComponents o instanceDir w) in
  let new := fst (swapper o instanceDir old w) in
  (forall nc, scan !! name = Some nc ->
     Component_Equal (meta nc) (meta oc) = false ->
     new !! name = Some nc /\ (name, oc) ∈ sync_actions old new)
  /\ (scan !! name = None ->
      new !! name = None /\ (name, oc) ∈ sync_actions old new).
Proof.
  intros Hold. unfold swapper, bind, ret.
  destruct (readAllComponents o instanceDir w) as [scan w1]. simpl. split.
  - intros nc Hn He.
    assert (Hnew : map_imap (swapper_entry old) scan !! name = Some nc).
    { rewrite map_lookup_imap, Hn. simpl. unfold swapper_entry.
      rewrite Hold. simpl. rewrite He. reflexivity. }
    split; [exact Hnew|]. unfold sync_actions. apply elem_of_app. right.
    apply elem_of_sync_changed. split; [exact Hold|]. exists nc. split; assumption.
  - intros Hn.
    assert (Hnew : map_imap (swapper_entry old) scan !! name = None).
    { rewrite map_lookup_imap, Hn. reflexivity. }
    split; [exact Hnew|]. unfold sync_actions. apply elem_of_app. left.
    apply elem_of_sync_removed. split; assumption.
Qed.

Lemma X20_changed_and_removed_definitions_witness :
  let old : gmap string component := {[ "kettle" := toaster ]} in
  let scan := fst (readAllComponents outside_instances instances World0) in
  let new := fst (swapper outside_instances instances old World0) in
  (forall nc, scan !! "kettle" = Some nc ->
     Component_Equal (meta nc) (meta toaster) = false ->
     new !! "kettle" = Some nc /\ ("kettle", toaster) ∈ sync_actions old new)
  /\ (scan !! "kettle" = None ->
      new !! "kettle" = None /\ ("kettle", toaster) ∈ sync_actions old new).
Proof.
  apply (X20_changed_and_removed_definitions outside_instances instances
           {[ "kettle" := toaster ]} World0 "kettle" toaster).
  reflexivity.
Defined.
